(** * Trade simulator: order-book history, cost model and reconnect policy

    A shallow embedding of [MAIN.cpp] and [Trade_simulator.h] (the
    [config.h] of the program).  The C++ [double] is kept abstract behind
    the class [Scalar]; it is instantiated twice, by the IEEE-754 binary64
    numbers of the kernel ([float]) to run the code on concrete inputs, and
    by the real numbers ([R]) to reason about the cost formulas exactly. *)

From Stdlib Require Import ZArith List String Bool Lia.
From Stdlib Require Import Reals Lra.
From Stdlib Require Import Floats.
Import ListNotations.

Set Implicit Arguments.

(** ** The arithmetic of [double] *)

Declare Scope scalar_scope.
Delimit Scope scalar_scope with scalar.

(** The operations of [double] the program uses.  [of_Z] is the conversion
    of an integer, [sqrt] is [std::sqrt]. *)
Class Scalar (T : Type) : Type := {
  of_Z : Z -> T;
  add : T -> T -> T;
  sub : T -> T -> T;
  mul : T -> T -> T;
  div : T -> T -> T;
  neg : T -> T;
  ltb : T -> T -> bool;
  leb : T -> T -> bool;
  sqrt : T -> T
}.

(** [std::exp] of [<cmath>]: the kernel's binary64 has no exponential, so
    it is a class of its own and the binary64 results hold for any [exp]. *)
Class Exponential (T : Type) : Type := { exp : T -> T }.

Infix "+" := add : scalar_scope.
Infix "-" := sub : scalar_scope.
Infix "*" := mul : scalar_scope.
Infix "/" := div : scalar_scope.
Notation "- x" := (neg x) : scalar_scope.
Infix "<?" := ltb : scalar_scope.
Infix "<=?" := leb : scalar_scope.
(** C++ [a > b] and [a >= b] are [b < a] and [b <= a], also on NaN. *)
Notation "x >? y" := (ltb y x) (at level 70) : scalar_scope.
Notation "x >=? y" := (leb y x) (at level 70) : scalar_scope.

(** A decimal literal [n/d] of the source, such as [0.01 = lit 1 100]. *)
Definition lit {T} `{Scalar T} (n d : Z) : T := div (of_Z n) (of_Z d).

(** [std::min(a, b)] is [(b < a) ? b : a]. *)
Definition std_min {T} `{Scalar T} (a b : T) : T :=
  if ltb b a then b else a.

(** What the proofs need of the order: [<] and [<=] exclude each other. *)
Class ScalarOrder (T : Type) `{Scalar T} : Prop := {
  ltb_not_leb : forall a b : T, ltb a b = true -> leb b a = false;
  leb_not_ltb : forall a b : T, leb a b = true -> ltb b a = false
}.
Arguments ScalarOrder T {_}.

(** *** Instance: IEEE-754 binary64 *)

Definition float_of_Z (z : Z) : float :=
  match z with
  | Z0 => PrimFloat.of_uint63 (Uint63.of_Z 0)
  | Zpos _ => PrimFloat.of_uint63 (Uint63.of_Z z)
  | Zneg p => PrimFloat.opp (PrimFloat.of_uint63 (Uint63.of_Z (Zpos p)))
  end.

#[export] Instance Scalar_float : Scalar float := {|
  of_Z := float_of_Z;
  add := PrimFloat.add;
  sub := PrimFloat.sub;
  mul := PrimFloat.mul;
  div := PrimFloat.div;
  neg := PrimFloat.opp;
  ltb := PrimFloat.ltb;
  leb := PrimFloat.leb;
  sqrt := PrimFloat.sqrt
|}.

(** *** Instance: exact real numbers *)

Definition Rltb (x y : R) : bool := if Rlt_dec x y then true else false.
Definition Rleb (x y : R) : bool := if Rle_dec x y then true else false.

#[export] Instance Scalar_R : Scalar R := {|
  of_Z := IZR;
  add := Rplus;
  sub := Rminus;
  mul := Rmult;
  div := Rdiv;
  neg := Ropp;
  ltb := Rltb;
  leb := Rleb;
  sqrt := R_sqrt.sqrt
|}.

#[export] Instance Exponential_R : Exponential R := {| exp := Rtrigo_def.exp |}.

(** ** Data model *)

(** [struct OrderBook]; the time point is a count of clock ticks. *)
Record OrderBook (T : Type) : Type := {
  symbol : string;
  asks : list (T * T);
  bids : list (T * T);
  timestamp : Z
}.

(** A default-constructed [OrderBook]. *)
Definition empty_book {T} : OrderBook T :=
  {| symbol := ""; asks := []; bids := []; timestamp := 0 |}.

(** [struct SimulationResults]. *)
Record SimulationResults (T : Type) : Type := {
  slippage : T;
  fees : T;
  marketImpact : T;
  netCost : T;
  makerTakerRatio : T;
  latency : T
}.

(** [SimulationResults()]: every field is [0.0]. *)
Definition default_results {T} `{Scalar T} : SimulationResults T :=
  {| slippage := of_Z 0; fees := of_Z 0; marketImpact := of_Z 0;
     netCost := of_Z 0; makerTakerRatio := of_Z 0; latency := of_Z 0 |}.

Section Slippage.
Context {T : Type} {HS : Scalar T}.
Local Open Scope scalar_scope.

(** The body of the [for] loop of [CalculateSlippage] over the remaining
    levels, threading [(filled, cost)]; the [break] ends the walk. *)
Fixpoint walk_asks (orderQty : T) (levels : list (T * T)) (filled cost : T)
  : T * T :=
  match levels with
  | [] => (filled, cost)
  | ask :: rest =>
      let price := fst ask in
      let size := snd ask in
      let take := std_min (orderQty - filled) size in
      let cost' := cost + take * price in
      let filled' := filled + take in
      if filled' >=? orderQty then (filled', cost')
      else walk_asks orderQty rest filled' cost'
  end.

(** [CalculateSlippage]; [None] is the access [book.bids[0]] on an empty
    vector, which C++ leaves undefined. *)
Definition CalculateSlippage (orderQty : T) (book : OrderBook T) : option T :=
  match nth_error (bids book) 0 with
  | None => None
  | Some best =>
      let initialPrice := fst best in
      let '(_, cost) := walk_asks orderQty (asks book) (of_Z 0) (of_Z 0) in
      Some ((cost / orderQty) - initialPrice)
  end.
End Slippage.

Section CostModel.
Context {T : Type} {HS : Scalar T} {HE : Exponential T}.
Local Open Scope scalar_scope.

(** [CalculateMarketImpact]: the simplified Almgren-Chriss model. *)
Definition CalculateMarketImpact (orderQty volatility : T) : T :=
  let eta := lit 1 100 in
  let gamma := lit 1 10000 in
  let timeHorizon := lit 1 1 in
  eta * orderQty + gamma * orderQty * orderQty
  + volatility * sqrt orderQty / sqrt timeHorizon.

(** [PredictMakerTakerRatio]: the logistic model. *)
Definition PredictMakerTakerRatio (orderQty volatility : T) : T :=
  of_Z 1 / (of_Z 1 + exp (- (lit 5 1000 * orderQty - lit 1 10 * volatility + of_Z 2))).
End CostModel.

(** ** Configuration ([Trade_simulator.h]) *)

Definition CONFIG_MAX_HISTORY : nat := 1000.
Definition CONFIG_RETRY_INTERVAL : nat := 5.

(** ** Global state, exceptions and effects *)

(** The [std::exception]s the modelled code throws, with their [what()]. *)
Inductive exception : Type :=
| invalid_argument (what : string)
| json_exception (what : string)
| system_error (what : string).

Definition what (e : exception) : string :=
  match e with
  | invalid_argument w | json_exception w | system_error w => w
  end.

(** A line of the log file: its level and its message.  The time stamp
    that [Logger::Log] prints in front of them is left out. *)
Record log_entry : Type := { level : string; message : string }.

(** The globals of [MAIN.cpp], the log file and the clock that
    [SimulateTrade] and [ProcessData] read: [clock n] is the [n]-th reading
    of [now()], in nanoseconds.  [wakeups] counts the [cv.notify_all()].
    The mutexes are left out: a call is one made by a thread that holds
    none of them, as the worker and the read handler make it, so that its
    [lock_guard]s are taken and given back within the call. *)
Record World (T : Type) : Type := {
  orderBookHistory : list (OrderBook T);
  currentResults : SimulationResults T;
  logFile : list log_entry;
  wakeups : nat;
  clock : nat -> Z;
  clock_reads : nat
}.

(** How a call ends: it returns, it leaves by an exception, or it runs
    into undefined behaviour (an access outside a container). *)
Inductive outcome (A : Type) : Type :=
| Returned (a : A)
| Thrown (e : exception)
| Undefined.
Arguments Thrown {A} e.
Arguments Undefined {A}.

(** *** [std::deque] *)

Definition pop_front {A} (d : list A) : option (list A) :=
  match d with
  | [] => None
  | _ :: d' => Some d'
  end.

Definition push_back {A} (d : list A) (x : A) : list A := d ++ [x].

Fixpoint back {A} (d : list A) : option A :=
  match d with
  | [] => None
  | [x] => Some x
  | _ :: d' => back d'
  end.

Definition is_empty {A} (d : list A) : bool :=
  match d with
  | [] => true
  | _ :: _ => false
  end.

Section Effects.
Context {T : Type}.

(** Computations over the globals that may throw. *)
Definition M (A : Type) : Type := World T -> outcome A * World T.

Definition ret {A} (a : A) : M A := fun w => (Returned a, w).

Definition bind {A B} (c : M A) (k : A -> M B) : M B :=
  fun w =>
    match c w with
    | (Returned a, w') => k a w'
    | (Thrown e, w') => (Thrown e, w')
    | (Undefined, w') => (Undefined, w')
    end.

Definition throw {A} (e : exception) : M A := fun w => (Thrown e, w).

(** [try { body } catch (const std::exception& e) { handler }]. *)
Definition try_catch {A} (body : M A) (handler : exception -> M A) : M A :=
  fun w =>
    match body w with
    | (Thrown e, w') => handler e w'
    | r => r
    end.

(** An indexing that C++ does not check. *)
Definition unchecked {A} (o : option A) : M A :=
  fun w =>
    match o with
    | Some a => (Returned a, w)
    | None => (Undefined, w)
    end.

Definition read_history : M (list (OrderBook T)) :=
  fun w => (Returned (orderBookHistory w), w).

Definition write_history (h : list (OrderBook T)) : M unit :=
  fun w =>
    (Returned tt,
     {| orderBookHistory := h; currentResults := currentResults w;
        logFile := logFile w; wakeups := wakeups w;
        clock := clock w; clock_reads := clock_reads w |}).

(** [Logger::Log(message, level)] appends a line to the log file. *)
Definition Log (msg lvl : string) : M unit :=
  fun w =>
    (Returned tt,
     {| orderBookHistory := orderBookHistory w;
        currentResults := currentResults w;
        logFile := logFile w ++ [{| level := lvl; message := msg |}];
        wakeups := wakeups w;
        clock := clock w; clock_reads := clock_reads w |}).

(** [ExceptionHandler::HandleException(e, context)]. *)
Definition HandleException (e : exception) (context : string) : M unit :=
  Log (context ++ ": " ++ what e)%string "ERROR".

(** [cv.notify_all()]. *)
Definition notify_all : M unit :=
  fun w =>
    (Returned tt,
     {| orderBookHistory := orderBookHistory w;
        currentResults := currentResults w;
        logFile := logFile w; wakeups := S (wakeups w);
        clock := clock w; clock_reads := clock_reads w |}).

(** [std::chrono::...::now()]. *)
Definition now : M Z :=
  fun w =>
    (Returned (clock w (clock_reads w)),
     {| orderBookHistory := orderBookHistory w;
        currentResults := currentResults w;
        logFile := logFile w; wakeups := wakeups w;
        clock := clock w; clock_reads := S (clock_reads w) |}).
End Effects.

Declare Scope effect_scope.
Delimit Scope effect_scope with effect.
Notation "x <- c ;; k" := (bind c (fun x => k))
  (at level 61, c at next level, right associativity) : effect_scope.
Notation "c ;; k" := (bind c (fun _ => k))
  (at level 61, right associativity) : effect_scope.

(** ** OrderBookHistory: the append of [ProcessData] *)

Section History.
Context {T : Type}.
Local Open Scope effect_scope.

(** Lines 149-155 on a deque, for a capacity [capacity]:
    [if (size() >= capacity) pop_front(); push_back(book);].
    [None] is [pop_front] on an empty deque. *)
Definition history_append (capacity : nat) (h : list (OrderBook T))
    (book : OrderBook T) : option (list (OrderBook T)) :=
  match (if (capacity <=? List.length h)%nat then pop_front h else Some h) with
  | None => None
  | Some h' => Some (push_back h' book)
  end.

(** The block run once per snapshot of [books], oldest first. *)
Fixpoint history_append_all (capacity : nat) (h books : list (OrderBook T))
  : option (list (OrderBook T)) :=
  match books with
  | [] => Some h
  | book :: rest =>
      match history_append capacity h book with
      | None => None
      | Some h' => history_append_all capacity h' rest
      end
  end.

(** The same block on the global [orderBookHistory]. *)
Definition append_to_history (book : OrderBook T) : M unit :=
  h <- read_history ;;
  h' <- unchecked (history_append CONFIG_MAX_HISTORY h book) ;;
  write_history h'.

(** What a received frame is to [ProcessData]: rejected by
    [ValidateJson]; accepted, but the conversion of [symbol] throws;
    accepted, but the conversion of a price or a size throws, which is
    after the time stamp was taken; accepted, but with a level that is an
    array of fewer than two entries, where [ask[0]] or [ask[1]], the
    unchecked index of a [const] JSON array, is outside the array; or a
    well-formed order book. *)
Inductive frame : Type :=
| Invalid
| BadSymbol (e : exception)
| BadLevel (sym : string) (e : exception)
| ShortLevel (sym : string)
| Parsed (sym : string) (asks_ bids_ : list (T * T)).

(** [WebSocketHandler::ProcessData]. *)
Definition ProcessData (f : frame) : M unit :=
  try_catch
    (match f with
     | Invalid => Log "Invalid JSON data received." "WARNING"
     | BadSymbol e => throw e
     | BadLevel _ e => _ <- now ;; throw e
     | ShortLevel _ => _ <- now ;; unchecked None
     | Parsed sym asks_ bids_ =>
         t <- now ;;
         let book := {| symbol := sym; asks := asks_; bids := bids_;
                        timestamp := t |} in
         append_to_history book ;;
         notify_all
     end)
    (fun e => HandleException e "Data processing error").
End History.

(** ** TradeSimulator *)

Section Simulator.
Context {T : Type} {HS : Scalar T} {HE : Exponential T}.
Local Open Scope scalar_scope.
Local Open Scope effect_scope.

(** [TradeSimulator::ValidateInputs]. *)
Definition ValidateInputs (quantity volatility feeTier : T) : M (T:=T) unit :=
  if quantity <=? of_Z 0 then
    throw (invalid_argument "Quantity must be positive")
  else if volatility <? of_Z 0 then
    throw (invalid_argument "Volatility cannot be negative")
  else if (feeTier <? of_Z 0) || (feeTier >? of_Z 1) then
    throw (invalid_argument "Fee tier must be between 0 and 1")
  else ret tt.

(** The [try] block of [SimulateTrade].  The latency is the difference
    of two clock readings cast to whole milliseconds. *)
Definition SimulateTrade_body (quantity volatility feeTier : T)
  : M (SimulationResults T) :=
  ValidateInputs quantity volatility feeTier ;;
  let results := default_results in
  history <- read_history ;;
  let currentBook :=
    match back history with
    | Some b => b
    | None => empty_book
    end in
  if is_empty (bids currentBook) || is_empty (asks currentBook) then
    ret results
  else
    start <- now ;;
    slip <- unchecked (CalculateSlippage quantity currentBook) ;;
    let fees_ := quantity * feeTier in
    let impact := CalculateMarketImpact quantity volatility in
    let ratio := PredictMakerTakerRatio quantity volatility in
    let net := slip + fees_ + impact in
    stop <- now ;;
    ret {| slippage := slip; fees := fees_; marketImpact := impact;
           netCost := net; makerTakerRatio := ratio;
           latency := of_Z (Z.quot (stop - start) 1000000) |}.

(** [TradeSimulator::SimulateTrade]. *)
Definition SimulateTrade (quantity volatility feeTier : T)
  : M (SimulationResults T) :=
  try_catch
    (SimulateTrade_body quantity volatility feeTier)
    (fun e =>
       HandleException e "Trade simulation error" ;;
       ret default_results).
End Simulator.

(** The argument triples [SimulateTrade] accepts, and those it rejects. *)
Section Inputs.
Context {T : Type} {HS : Scalar T}.
Local Open Scope scalar_scope.

(** [quantity > 0], [volatility >= 0] and [0 <= feeTier <= 1]. *)
Definition valid_inputs (quantity volatility feeTier : T) : Prop :=
  (quantity >? of_Z 0) = true /\ (volatility >=? of_Z 0) = true /\
  (feeTier >=? of_Z 0) = true /\ (feeTier <=? of_Z 1) = true.

(** [quantity <= 0], or [volatility < 0], or [feeTier] outside [0, 1]. *)
Definition invalid_inputs (quantity volatility feeTier : T) : Prop :=
  (quantity <=? of_Z 0) = true \/ (volatility <? of_Z 0) = true \/
  (feeTier <? of_Z 0) = true \/ (feeTier >? of_Z 1) = true.
End Inputs.

(** ** WebSocketHandler: connecting and retrying *)

(** What the network does at the next fallible step: the resolve, connect
    and handshake of [Connect], or the close of [RetryConnection]. *)
Inductive io : Type :=
| Succeeds
| Fails (e : exception).

(** The thread that connects: the live activations of [Connect] and
    [RetryConnection] on its stack, the most there have been at once, the
    seconds slept and what it logged. *)
Record conn_state : Type := {
  frames : nat;
  peak : nat;
  slept : nat;
  conn_log : list log_entry
}.

Definition enter (st : conn_state) : conn_state :=
  {| frames := S (frames st); peak := Nat.max (peak st) (S (frames st));
     slept := slept st; conn_log := conn_log st |}.

Definition leave (st : conn_state) : conn_state :=
  {| frames := pred (frames st); peak := peak st;
     slept := slept st; conn_log := conn_log st |}.

Definition sleep_for (seconds : nat) (st : conn_state) : conn_state :=
  {| frames := frames st; peak := peak st;
     slept := slept st + seconds; conn_log := conn_log st |}.

Definition conn_Log (msg lvl : string) (st : conn_state) : conn_state :=
  {| frames := frames st; peak := peak st; slept := slept st;
     conn_log := conn_log st ++ [{| level := lvl; message := msg |}] |}.

Definition conn_HandleException (e : exception) (context : string)
    (st : conn_state) : conn_state :=
  conn_Log (context ++ ": " ++ what e)%string "ERROR" st.

(** A run of the connecting thread against a finite script of the
    network's answers: the call has returned, or the script is over and the
    thread is blocked in its next network call with its frames live. *)
Inductive run : Type :=
| Finished (st : conn_state)
| Blocked (st : conn_state).

(** What the caller does once the callee has returned. *)
Definition and_then (r : run) (k : conn_state -> conn_state) : run :=
  match r with
  | Finished st => Finished (k st)
  | Blocked st => Blocked st
  end.

(** [Connect] and [RetryConnection].  A call pushes a frame and a return
    pops it.  [StartAsyncRead] only registers a handler and returns. *)
Fixpoint Connect (script : list io) (st : conn_state) : run :=
  let st := enter st in
  match script with
  | [] => Blocked st
  | Succeeds :: _ =>
      Finished
        (leave (conn_Log "WebSocket connection established successfully."
                         "INFO" st))
  | Fails e :: script' =>
      and_then
        (RetryConnection script'
           (conn_HandleException e "WebSocket connection error" st))
        leave
  end
with RetryConnection (script : list io) (st : conn_state) : run :=
  let st := sleep_for CONFIG_RETRY_INTERVAL (enter st) in
  match script with
  | [] => Blocked st
  | Succeeds :: script' => and_then (Connect script' st) leave
  | Fails e :: script' =>
      and_then
        (RetryConnection script'
           (conn_HandleException e "Connection retry failed" st))
        leave
  end.

(** The thread before [main] calls [Connect]. *)
Definition idle : conn_state :=
  {| frames := 0; peak := 0; slept := 0; conn_log := [] |}.

Definition state_of (r : run) : conn_state :=
  match r with
  | Finished st | Blocked st => st
  end.

(** ** The slippage walk in the words of the specification *)

Module Spec.
Local Open Scope R_scope.

(** Start with [remaining = quantity] and [cost = 0]; at each level take
    [min(remaining, levelSize)], add [take * levelPrice] to the cost,
    subtract the take from [remaining]; stop when [remaining <= 0] or
    the levels are exhausted. *)
Fixpoint fill (levels : list (R * R)) (remaining cost : R) : R :=
  match levels with
  | [] => cost
  | (levelPrice, levelSize) :: rest =>
      let take := Rmin remaining levelSize in
      let cost' := cost + take * levelPrice in
      let remaining' := remaining - take in
      if Rle_dec remaining' 0 then cost' else fill rest remaining' cost'
  end.

(** [slippagePerUnit = (cost / quantity) - bestBidPrice]. *)
Definition slippagePerUnit (quantity : R) (book : OrderBook R) : option R :=
  match bids book with
  | [] => None
  | (bestBidPrice, _) :: _ => Some (fill (asks book) quantity 0 / quantity - bestBidPrice)
  end.

(** Total visible ask depth, and the cost of taking all of it. *)
Definition depth (levels : list (R * R)) : R :=
  fold_right (fun level acc => snd level + acc) 0 levels.

Definition notional (levels : list (R * R)) : R :=
  fold_right (fun level acc => snd level * fst level + acc) 0 levels.
End Spec.

(** ** Sample inputs *)

(** The order book of the unit test [SlippageCalculation]. *)
Definition test_book {T} `{Scalar T} : OrderBook T :=
  {| symbol := "";
     asks := [(of_Z 101, of_Z 5); (of_Z 102, of_Z 10)];
     bids := [(of_Z 100, of_Z 10)];
     timestamp := 0 |}.

(** A book whose second ask has a negative size; [ProcessData] takes in
    any numbers a frame carries. *)
Definition negative_size_book {T} `{Scalar T} : OrderBook T :=
  {| symbol := "";
     asks := [(of_Z 101, of_Z 10); (of_Z 102, of_Z (-8))];
     bids := [(of_Z 100, of_Z 10)];
     timestamp := 0 |}.

(** A world whose history holds [books], with a clock that advances by
    1.5 ms per reading. *)
Definition world_with {T} `{Scalar T} (books : list (OrderBook T)) : World T :=
  {| orderBookHistory := books; currentResults := default_results;
     logFile := []; wakeups := 0;
     clock := fun n => (Z.of_nat n * 1500000)%Z; clock_reads := 0 |}.

(** [n] failed connection attempts, each followed by a close that works. *)
Fixpoint failures (n : nat) (e : exception) : list io :=
  match n with
  | O => []
  | S n' => Fails e :: Succeeds :: failures n' e
  end.

(** One failed attempt seen from the thread: [Connect] is entered, logs
    the error and calls [RetryConnection], which is entered and sleeps. *)
Definition retry_once (e : exception) (st : conn_state) : conn_state :=
  sleep_for CONFIG_RETRY_INTERVAL
    (enter (conn_HandleException e "WebSocket connection error" (enter st))).

Fixpoint retry_times (n : nat) (e : exception) (st : conn_state) : conn_state :=
  match n with
  | O => st
  | S n' => retry_times n' e (retry_once e st)
  end.

(** The returns still owed once the innermost call comes back. *)
Fixpoint unwind (k : nat) (r : run) : run :=
  match k with
  | O => r
  | S k' => and_then (unwind k' r) leave
  end.

(** ** The default parameters and the worker *)

Section Worker.
Context {T : Type} {HS : Scalar T} {HE : Exponential T}.
Local Open Scope effect_scope.

(** [CONFIG_DEFAULT_QUANTITY], [CONFIG_DEFAULT_VOLATILITY] and
    [CONFIG_DEFAULT_FEE_TIER]: 100.0, 0.02 and 0.001. *)
Definition CONFIG_DEFAULT_QUANTITY : T := lit 100 1.
Definition CONFIG_DEFAULT_VOLATILITY : T := lit 2 100.
Definition CONFIG_DEFAULT_FEE_TIER : T := lit 1 1000.

(** [currentResults = results;] under the results mutex. *)
Definition publish (results : SimulationResults T) : M unit :=
  fun w =>
    (Returned tt,
     {| orderBookHistory := orderBookHistory w; currentResults := results;
        logFile := logFile w; wakeups := wakeups w;
        clock := clock w; clock_reads := clock_reads w |}).

(** The [try] statement of [SimulationWorker], which one turn of its loop
    runs once it was woken and was not told to stop. *)
Definition SimulationWorker_cycle : M (T:=T) unit :=
  try_catch
    (results <- SimulateTrade CONFIG_DEFAULT_QUANTITY CONFIG_DEFAULT_VOLATILITY
                  CONFIG_DEFAULT_FEE_TIER ;;
     publish results)
    (fun e => HandleException e "Simulation worker error").
End Worker.

(** ** WebSocketHandler: reading and the heartbeat *)

Section Reading.
Context {T : Type}.
Local Open Scope effect_scope.

(** What an asynchronous read hands to its completion handler: an error
    code, which may be [websocket::error::closed], or a buffer, given as
    what [ProcessData] makes of it. *)
Inductive read_event : Type :=
| ReadFails (closed : bool) (e : exception)
| ReadFrame (f : frame (T:=T)).

(** [WebSocketHandler::StartAsyncRead] with the handlers it chains, against
    a script of read completions; at the end of the script a read is
    pending. *)
Fixpoint StartAsyncRead (events : list read_event) : M (T:=T) unit :=
  match events with
  | [] => ret tt
  | ReadFails closed e :: _ =>
      if closed then ret tt else HandleException e "Async read error"
  | ReadFrame f :: rest => ProcessData f ;; StartAsyncRead rest
  end.

(** A read that hands over a frame with a level of fewer than two entries. *)
Definition short_level (ev : read_event) : bool :=
  match ev with
  | ReadFrame (ShortLevel _) => true
  | _ => false
  end.

(** What a book holds apart from its time stamp. *)
Definition content (book : OrderBook T) : string * list (T * T) * list (T * T) :=
  (symbol book, asks book, bids book).

(** The well-formed frames of a script up to its first failed read. *)
Fixpoint ingested (events : list read_event)
  : list (string * list (T * T) * list (T * T)) :=
  match events with
  | [] => []
  | ReadFails _ _ :: _ => []
  | ReadFrame (Parsed sym asks_ bids_) :: rest => (sym, asks_, bids_) :: ingested rest
  | ReadFrame _ :: rest => ingested rest
  end.
End Reading.

Definition CONFIG_PING_INTERVAL : Z := 20.

(** The heartbeat of a handler: its member [lastPing_], the times at which
    a ping went out, and what was logged.  Times are in nanoseconds. *)
Record ping_state : Type := {
  lastPing_ : Z;
  pings : list Z;
  ping_log : list log_entry
}.

(** [WebSocketHandler::Ping], called when the steady clock reads [now_] and
    with [answer] what [ws_.ping] does if it is called. *)
Definition Ping (now_ : Z) (answer : io) (st : ping_state) : ping_state :=
  if (CONFIG_PING_INTERVAL * 1000000000 <? now_ - lastPing_ st)%Z then
    match answer with
    | Succeeds =>
        {| lastPing_ := now_; pings := pings st ++ [now_];
           ping_log := ping_log st |}
    | Fails e =>
        {| lastPing_ := lastPing_ st; pings := pings st;
           ping_log := ping_log st
                       ++ [{| level := "ERROR";
                              message := ("Ping error" ++ ": " ++ what e)%string |}] |}
    end
  else st.

(** A sequence of calls of [Ping]. *)
Fixpoint Ping_calls (calls : list (Z * io)) (st : ping_state) : ping_state :=
  match calls with
  | [] => st
  | (now_, answer) :: rest => Ping_calls rest (Ping now_ answer st)
  end.

(** Every two neighbours of [times] are more than [gap] apart. *)
Fixpoint spaced (gap : Z) (times : list Z) : Prop :=
  match times with
  | [] => True
  | t :: rest =>
      match rest with
      | [] => True
      | t' :: _ => (gap < t' - t)%Z
      end /\ spaced gap rest
  end.

(** What [Ping] keeps: [lastPing_] is the time of the last ping sent, or
    the initial one, and the pings sent are spaced. *)
Definition ping_invariant (t0 : Z) (st : ping_state) : Prop :=
  (exists front, t0 :: pings st = front ++ [lastPing_ st]) /\
  spaced (CONFIG_PING_INTERVAL * 1000000000) (t0 :: pings st).

(** The ERROR lines of a log. *)
Definition is_error (entry : log_entry) : bool := String.eqb (level entry) "ERROR".

Definition errors (log : list log_entry) : nat := List.length (filter is_error log).

(** A book with bids and no asks, and a published result that is not zero. *)
Definition one_sided_world : World R :=
  {| orderBookHistory :=
       [{| symbol := "BTC-USDT-SWAP"; asks := []; bids := [(100%R, 10%R)];
           timestamp := 0 |}];
     currentResults :=
       {| slippage := 1%R; fees := 1%R; marketImpact := 1%R; netCost := 3%R;
          makerTakerRatio := 1%R; latency := 1%R |};
     logFile := []; wakeups := 0;
     clock := fun n => (Z.of_nat n * 1500000)%Z; clock_reads := 0 |}.

(** * Properties *)

(** ** The two instances of the order *)

Lemma Rltb_true (x y : R) : (x < y)%R -> Rltb x y = true.
Proof. intros Hlt. unfold Rltb. destruct (Rlt_dec x y); [reflexivity | contradiction]. Qed.

Lemma Rltb_false (x y : R) : (y <= x)%R -> Rltb x y = false.
Proof. intros Hle. unfold Rltb. destruct (Rlt_dec x y); [lra | reflexivity]. Qed.

Lemma Rleb_true (x y : R) : (x <= y)%R -> Rleb x y = true.
Proof. intros Hle. unfold Rleb. destruct (Rle_dec x y); [reflexivity | contradiction]. Qed.

Lemma Rleb_false (x y : R) : (y < x)%R -> Rleb x y = false.
Proof. intros Hlt. unfold Rleb. destruct (Rle_dec x y); [lra | reflexivity]. Qed.

Lemma Rltb_lt (x y : R) : Rltb x y = true -> (x < y)%R.
Proof. unfold Rltb. destruct (Rlt_dec x y); [trivial | discriminate]. Qed.

Lemma Rleb_le (x y : R) : Rleb x y = true -> (x <= y)%R.
Proof. unfold Rleb. destruct (Rle_dec x y); [trivial | discriminate]. Qed.

#[export] Instance ScalarOrder_R : ScalarOrder R.
Proof.
  split; simpl; intros a b Hab.
  - apply Rleb_false, Rltb_lt, Hab.
  - apply Rltb_false, Rleb_le, Hab.
Qed.

(** The comparison of binary64 numbers is antisymmetric, NaN included. *)
Lemma SFcompare_antisym (x y : spec_float) :
  SFcompare y x = option_map CompOpp (SFcompare x y).
Proof.
  destruct x as [sx | sx | | sx mx ex], y as [sy | sy | | sy my ey]; simpl;
    try reflexivity;
    try (destruct sx; reflexivity);
    try (destruct sy; reflexivity);
    try (destruct sx, sy; reflexivity).
  destruct sx, sy; simpl; try reflexivity;
    rewrite (Z.compare_antisym ex ey);
    destruct (ex ?= ey)%Z; simpl; try reflexivity;
    rewrite (Pos.compare_cont_antisym mx my Eq); reflexivity.
Qed.

#[export] Instance ScalarOrder_float : ScalarOrder float.
Proof.
  split; simpl; intros a b; rewrite ltb_spec, leb_spec;
    unfold SFltb, SFleb; rewrite (SFcompare_antisym (Prim2SF a) (Prim2SF b));
    destruct (SFcompare (Prim2SF a) (Prim2SF b)) as [[ | | ] | ]; simpl; congruence.
Qed.

(** ** Validation and the fallbacks of [SimulateTrade] *)

Section SimulatorFacts.
Context {T : Type} {HS : Scalar T} {HE : Exponential T}.
Local Open Scope scalar_scope.

Lemma ValidateInputs_invalid (q v f : T) (w : World T) :
  invalid_inputs q v f ->
  exists msg, ValidateInputs q v f w = (Thrown (invalid_argument msg), w).
Proof.
  unfold invalid_inputs, ValidateInputs.
  intros [Hq | [Hv | Hf]].
  - rewrite Hq. eexists. reflexivity.
  - destruct (q <=? of_Z 0); [eexists; reflexivity | ].
    rewrite Hv. eexists. reflexivity.
  - destruct (q <=? of_Z 0); [eexists; reflexivity | ].
    destruct (v <? of_Z 0); [eexists; reflexivity | ].
    replace ((f <? of_Z 0) || (f >? of_Z 1)) with true.
    + eexists. reflexivity.
    + symmetry. apply orb_true_iff. exact Hf.
Qed.

Lemma ValidateInputs_valid `{!ScalarOrder T} (q v f : T) (w : World T) :
  valid_inputs q v f -> ValidateInputs q v f w = (Returned tt, w).
Proof.
  intros (Hq & Hv & Hf0 & Hf1). unfold ValidateInputs.
  rewrite (ltb_not_leb _ _ Hq), (leb_not_ltb _ _ Hv),
    (leb_not_ltb _ _ Hf0), (leb_not_ltb _ _ Hf1).
  reflexivity.
Qed.

(** The guard of [SimulateTrade] is what [CalculateSlippage] needs. *)
Lemma CalculateSlippage_defined (q : T) (book : OrderBook T) :
  is_empty (bids book) = false ->
  exists s, CalculateSlippage q book = Some s.
Proof.
  unfold CalculateSlippage. destruct (bids book) as [ | best rest]; simpl.
  - discriminate.
  - intros _. destruct (walk_asks q (asks book) (of_Z 0) (of_Z 0)).
    eexists. reflexivity.
Qed.

(** C1 (amended): on an invalid argument triple the validation error is
    caught inside [SimulateTrade], which logs one ERROR line and returns
    the default all-zero result; the order-book history and the
    published result are as before the call. *)
Theorem SimulateTrade_invalid_inputs_default (q v f : T) (w : World T) :
  invalid_inputs q v f ->
  fst (SimulateTrade q v f w) = Returned default_results /\
  orderBookHistory (snd (SimulateTrade q v f w)) = orderBookHistory w /\
  currentResults (snd (SimulateTrade q v f w)) = currentResults w /\
  exists msg,
    logFile (snd (SimulateTrade q v f w))
    = logFile w ++ [{| level := "ERROR"; message := msg |}].
Proof.
  intros Hinv.
  destruct (ValidateInputs_invalid w Hinv) as [msg Hthrow].
  unfold SimulateTrade, try_catch, SimulateTrade_body, bind.
  rewrite Hthrow. simpl.
  repeat split; try reflexivity.
  eexists. reflexivity.
Qed.

(** C6: on a valid argument triple, when the history is empty or the
    bid side or the ask side of the latest snapshot is empty,
    [SimulateTrade] returns the default all-zero result, throws nothing
    and leaves the globals untouched. *)
Theorem SimulateTrade_no_liquidity_default `{!ScalarOrder T}
    (q v f : T) (w : World T) :
  valid_inputs q v f ->
  (orderBookHistory w = [] \/
   exists book, back (orderBookHistory w) = Some book /\
                (bids book = [] \/ asks book = [])) ->
  SimulateTrade q v f w = (Returned default_results, w).
Proof.
  intros Hvalid Hbook.
  unfold SimulateTrade, try_catch, SimulateTrade_body, bind.
  rewrite (ValidateInputs_valid w Hvalid). simpl.
  destruct Hbook as [Hnil | (book & Hback & Hside)].
  - rewrite Hnil. reflexivity.
  - rewrite Hback. destruct Hside as [Hside | Hside]; rewrite Hside; simpl.
    + reflexivity.
    + rewrite orb_true_r. reflexivity.
Qed.

(** C8: from valid inputs and a latest snapshot with both sides
    non-empty, the result has [fees = quantity * feeTier] and
    [netCost = slippage + fees + marketImpact]; the maker/taker ratio is
    no term of [netCost], which is the same whatever [exp] computes. *)
Theorem SimulateTrade_fees_and_netCost `{!ScalarOrder T}
    (q v f : T) (w : World T) (book : OrderBook T) :
  valid_inputs q v f ->
  back (orderBookHistory w) = Some book ->
  bids book <> [] -> asks book <> [] ->
  exists r,
    fst (SimulateTrade q v f w) = Returned r /\
    fees r = q * f /\
    netCost r = slippage r + fees r + marketImpact r /\
    CalculateSlippage q book = Some (slippage r) /\
    marketImpact r = CalculateMarketImpact q v /\
    makerTakerRatio r = PredictMakerTakerRatio q v /\
    forall (E : Exponential T) r',
      fst (SimulateTrade (HE:=E) q v f w) = Returned r' ->
      netCost r' = netCost r.
Proof.
  intros Hvalid Hback Hbids Hasks.
  assert (Hguard : is_empty (bids book) || is_empty (asks book) = false).
  { destruct (bids book); [contradiction | ].
    destruct (asks book); [contradiction | reflexivity]. }
  assert (Hb : is_empty (bids book) = false).
  { destruct (bids book); [contradiction | reflexivity]. }
  destruct (CalculateSlippage_defined q book Hb) as [slip Hslip].
  assert (Hrun : forall E : Exponential T,
    fst (SimulateTrade (HE:=E) q v f w)
    = Returned
        {| slippage := slip; fees := q * f;
           marketImpact := CalculateMarketImpact q v;
           netCost := slip + q * f + CalculateMarketImpact q v;
           makerTakerRatio := PredictMakerTakerRatio (HE:=E) q v;
           latency :=
             of_Z (Z.quot (clock w (S (clock_reads w))
                           - clock w (clock_reads w)) 1000000) |}).
  { intros E.
    unfold SimulateTrade, try_catch, SimulateTrade_body, bind.
    rewrite (ValidateInputs_valid w Hvalid). simpl.
    rewrite Hback, Hguard. simpl. rewrite Hslip. reflexivity. }
  eexists. split; [apply Hrun | ]. simpl.
  repeat split; try assumption.
  intros E r' Hr'. rewrite Hrun in Hr'. inversion Hr'. reflexivity.
Qed.

(** C9: [book.bids[0]] is read only behind the guard that both sides are
    non-empty: behind it [CalculateSlippage] is defined, and no input
    drives [SimulateTrade] into the out-of-bounds branch. *)
Theorem SimulateTrade_best_bid_in_bounds :
  (forall (q : T) (book : OrderBook T),
      is_empty (bids book) || is_empty (asks book) = false ->
      nth_error (bids book) 0 <> None /\ CalculateSlippage q book <> None) /\
  (forall (q v f : T) (w : World T),
      fst (SimulateTrade q v f w) <> Undefined).
Proof.
  split.
  - intros q book Hguard. apply orb_false_iff in Hguard as [Hb _].
    destruct (CalculateSlippage_defined q book Hb) as [s Hs].
    split; [ | congruence].
    destruct (bids book); [discriminate | simpl; congruence].
  - intros q v f w.
    unfold SimulateTrade, try_catch, SimulateTrade_body, bind.
    destruct (ValidateInputs q v f w) as [[[] | e | ] w'] eqn:Hval; simpl.
    + destruct (back (orderBookHistory w')) as [book | ]; simpl.
      * destruct (is_empty (bids book)) eqn:Hb; simpl; [discriminate | ].
        destruct (is_empty (asks book)) eqn:Ha; simpl; [discriminate | ].
        destruct (CalculateSlippage_defined q book Hb) as [s Hs].
        rewrite Hs. simpl. discriminate.
      * discriminate.
    + discriminate.
    + exfalso. unfold ValidateInputs in Hval.
      destruct (q <=? of_Z 0); [discriminate | ].
      destruct (v <? of_Z 0); [discriminate | ].
      destruct ((f <? of_Z 0) || (f >? of_Z 1)); discriminate.
Qed.
End SimulatorFacts.

(** *** The same on concrete inputs, over the reals *)

Section SimulatorExamples.
Local Open Scope R_scope.

Ltac compare_reals :=
  simpl;
  first [ apply Rltb_true | apply Rleb_true | apply Rltb_false | apply Rleb_false ];
  lra.

Lemma sample_inputs_valid : valid_inputs (T:=R) 7 (1 / 100) (1 / 1000).
Proof. unfold valid_inputs. repeat split; compare_reals. Qed.

Lemma zero_quantity_invalid : invalid_inputs (T:=R) 0 (1 / 100) (1 / 1000).
Proof. left. compare_reals. Qed.

(** C1 (as stated) fails: with [quantity = 0] the call returns the default
    all-zero result to its caller, and throws nothing. *)
Lemma SimulateTrade_zero_quantity_not_raised :
  invalid_inputs (T:=R) 0 (1 / 100) (1 / 1000) /\
  fst (SimulateTrade (T:=R) 0 (1 / 100) (1 / 1000) (world_with [test_book]))
  = Returned default_results /\
  ~ (exists e,
        fst (SimulateTrade (T:=R) 0 (1 / 100) (1 / 1000) (world_with [test_book]))
        = Thrown e).
Proof.
  assert (Hrun :
    fst (SimulateTrade (T:=R) 0 (1 / 100) (1 / 1000) (world_with [test_book]))
    = Returned default_results).
  { unfold SimulateTrade, try_catch, SimulateTrade_body, bind, ValidateInputs.
    replace (0 <=? of_Z 0)%scalar with true by (symmetry; compare_reals).
    reflexivity. }
  split; [exact zero_quantity_invalid | ].
  split; [exact Hrun | ].
  intros [e He]. rewrite Hrun in He. discriminate.
Qed.

Lemma SimulateTrade_invalid_inputs_default_witness :
  invalid_inputs (T:=R) 0 (1 / 100) (1 / 1000) /\
  fst (SimulateTrade (T:=R) 0 (1 / 100) (1 / 1000) (world_with [test_book]))
  = Returned default_results.
Proof.
  split.
  - exact zero_quantity_invalid.
  - apply (SimulateTrade_invalid_inputs_default (world_with [test_book])
             zero_quantity_invalid).
Defined.

Lemma SimulateTrade_no_liquidity_default_witness :
  SimulateTrade (T:=R) 7 (1 / 100) (1 / 1000) (world_with [])
  = (Returned default_results, world_with []).
Proof.
  apply (SimulateTrade_no_liquidity_default (T:=R)).
  - exact sample_inputs_valid.
  - left. reflexivity.
Defined.

Lemma SimulateTrade_fees_and_netCost_witness :
  exists r,
    fst (SimulateTrade (T:=R) 7 (1 / 100) (1 / 1000) (world_with [test_book]))
    = Returned r /\
    fees r = 7 * (1 / 1000) /\
    netCost r = slippage r + fees r + marketImpact r.
Proof.
  destruct (@SimulateTrade_fees_and_netCost R _ _ _ 7 (1 / 100) (1 / 1000)
              (world_with [test_book]) test_book)
    as (r & Hr & Hfees & Hnet & _).
  - exact sample_inputs_valid.
  - reflexivity.
  - discriminate.
  - discriminate.
  - exists r. repeat split; assumption.
Defined.
End SimulatorExamples.

(** *** Runs in binary64, for any [exp] *)

Section Binary64Runs.
Context {E : Exponential float}.

(** The unit test [SlippageCalculation]: a slippage near 1.2857, a fee of
    [7 * 0.001], a latency of one whole millisecond out of 1.5. *)
Example SimulateTrade_unit_test_run :
  exists r,
    fst (SimulateTrade (T:=float) (of_Z 7) (lit 1 100) (lit 1 1000) (world_with [test_book]))
    = Returned r /\
    PrimFloat.ltb (PrimFloat.abs (slippage r - lit 12857 10000)%scalar)
                  (lit 1 1000) = true /\
    fees r = (of_Z 7 * lit 1 1000)%scalar /\
    netCost r = (slippage r + fees r + marketImpact r)%scalar /\
    latency r = of_Z 1.
Proof.
  eexists. split; [vm_compute; reflexivity | ].
  repeat split; vm_compute; reflexivity.
Qed.

(** A quantity of zero and a fee tier of 1.5 both end in the [catch]. *)
Example SimulateTrade_rejected_runs :
  (let out := SimulateTrade (T:=float) (of_Z 0) (lit 1 100) (lit 1 1000) (world_with [test_book]) in
   fst out = Returned default_results /\
   logFile (snd out)
   = [{| level := "ERROR";
         message := "Trade simulation error: Quantity must be positive" |}]) /\
  (let out := SimulateTrade (T:=float) (of_Z 7) (lit 1 100) (lit 3 2) (world_with [test_book]) in
   fst out = Returned default_results /\
   logFile (snd out)
   = [{| level := "ERROR";
         message := "Trade simulation error: Fee tier must be between 0 and 1" |}]).
Proof. repeat split; vm_compute; reflexivity. Qed.
End Binary64Runs.

(** ** The bounded history *)

Section HistoryFacts.
Context {T : Type}.
Implicit Types (h books rest : list (OrderBook T)) (book old first : OrderBook T).

Lemma back_snoc {A} (d : list A) (x : A) : back (d ++ [x]) = Some x.
Proof.
  induction d as [ | y d IH]; simpl.
  - reflexivity.
  - rewrite IH. destruct (d ++ [x]) eqn:Hd; [ | reflexivity].
    destruct d; discriminate.
Qed.

Lemma history_append_room (capacity : nat) h book :
  (List.length h < capacity)%nat ->
  history_append capacity h book = Some (h ++ [book]).
Proof.
  intros Hlt. unfold history_append.
  destruct (Nat.leb_spec capacity (List.length h)); [lia | reflexivity].
Qed.

Lemma history_append_full (capacity : nat) old h book :
  List.length (old :: h) = capacity ->
  history_append capacity (old :: h) book = Some (h ++ [book]).
Proof.
  intros Hlen. unfold history_append.
  destruct (Nat.leb_spec capacity (List.length (old :: h))); [reflexivity | lia].
Qed.

(** After any run of appends the history is the last [capacity]
    snapshots of everything it was given. *)
Lemma history_append_all_window (capacity : nat) books : forall h,
  (1 <= capacity)%nat -> (List.length h <= capacity)%nat ->
  history_append_all capacity h books
  = Some (skipn (List.length (h ++ books) - capacity) (h ++ books)).
Proof.
  induction books as [ | book rest IH]; intros h Hcap Hlen; simpl.
  - rewrite app_nil_r.
    replace (List.length h - capacity)%nat with 0%nat by lia. reflexivity.
  - destruct (Nat.eq_dec (List.length h) capacity) as [Hfull | Hroom].
    + destruct h as [ | old h]; [simpl in Hfull; lia | ].
      rewrite (history_append_full book Hfull).
      rewrite IH by (try rewrite length_app; simpl in *; lia).
      rewrite <- app_assoc. cbn [app].
      assert (Hwin : (List.length (old :: h ++ book :: rest) - capacity
                      = S (List.length (h ++ book :: rest) - capacity))%nat).
      { cbn [List.length] in *. rewrite length_app. cbn [List.length]. lia. }
      rewrite Hwin. reflexivity.
    + rewrite history_append_room by lia.
      rewrite IH by (try rewrite length_app; simpl; lia).
      rewrite <- app_assoc. reflexivity.
Qed.

(** C5: a history of capacity [capacity >= 1] never holds more than
    [capacity] snapshots; an append to a full history drops the oldest
    one and puts the new one at the end; [capacity + 1] appends to the
    empty history leave the last [capacity] of them, the first one gone;
    and [back], the latest accessor, gives the snapshot appended last. *)
Theorem history_bounded_fifo (capacity : nat) :
  (1 <= capacity)%nat ->
  (forall h book,
      (List.length h <= capacity)%nat ->
      exists h',
        history_append capacity h book = Some h' /\
        (List.length h' <= capacity)%nat /\
        back h' = Some book) /\
  (forall old h book,
      List.length (old :: h) = capacity ->
      history_append capacity (old :: h) book = Some (h ++ [book])) /\
  (forall first rest,
      List.length rest = capacity ->
      history_append_all capacity [] (first :: rest) = Some rest) /\
  (forall h books,
      (List.length h <= capacity)%nat ->
      exists h',
        history_append_all capacity h books = Some h' /\
        (List.length h' <= capacity)%nat /\
        (books <> [] -> back h' = back books)).
Proof.
  intros Hcap. repeat split.
  - intros h book Hlen.
    destruct (Nat.eq_dec (List.length h) capacity) as [Hfull | Hroom].
    + destruct h as [ | old h]; [simpl in Hfull; lia | ].
      rewrite (history_append_full book Hfull).
      eexists. split; [reflexivity | ]. split.
      * rewrite length_app. simpl in *. lia.
      * apply (back_snoc h book).
    + rewrite history_append_room by lia.
      eexists. split; [reflexivity | ]. split.
      * rewrite length_app. simpl. lia.
      * apply (back_snoc h book).
  - intros old h book. apply history_append_full.
  - intros first rest Hlen.
    rewrite history_append_all_window by (simpl; lia).
    cbn [app List.length].
    replace (S (List.length rest) - capacity)%nat with 1%nat by lia.
    reflexivity.
  - intros h books Hlen.
    rewrite history_append_all_window by assumption.
    eexists. split; [reflexivity | ]. split.
    + rewrite length_skipn. lia.
    + intros Hne. destruct (exists_last Hne) as (front & book & ->).
      rewrite (back_snoc front book).
      rewrite app_assoc.
      assert (Hkeep : exists kept,
                 skipn (List.length ((h ++ front) ++ [book]) - capacity)
                       ((h ++ front) ++ [book]) = kept ++ [book]).
      { rewrite length_app. simpl.
        destruct (Nat.le_gt_cases (List.length (h ++ front) + 1 - capacity)
                    (List.length (h ++ front))) as [Hle | Hgt]; [ | lia].
        rewrite skipn_app.
        replace (List.length (h ++ front) + 1 - capacity
                 - List.length (h ++ front))%nat with 0%nat by lia.
        eexists. reflexivity. }
      destruct Hkeep as [kept ->]. apply (back_snoc kept book).
Qed.
End HistoryFacts.

Lemma history_bounded_fifo_witness :
  history_append_all 2 []
    [test_book (T:=float); empty_book; test_book]
  = Some [empty_book; test_book].
Proof.
  apply (proj1 (proj2 (proj2 (@history_bounded_fifo float 2 (le_S 1 1 (le_n 1)))))).
  reflexivity.
Defined.

(** ** The cost formulas over the reals *)

Section CostFormulas.
Local Open Scope R_scope.

Lemma std_min_Rmin (a b : R) : std_min a b = Rmin a b.
Proof.
  unfold std_min, Rmin. simpl. unfold Rltb.
  destruct (Rlt_dec b a), (Rle_dec a b); try reflexivity; lra.
Qed.

(** The loop of the code, which counts what is filled, is the walk of
    the specification, which counts what remains. *)
Lemma walk_asks_fill (q : R) (levels : list (R * R)) : forall filled cost,
  snd (walk_asks q levels filled cost) = Spec.fill levels (q - filled) cost.
Proof.
  induction levels as [ | [price size] rest IH]; intros filled cost.
  - reflexivity.
  - cbn [walk_asks Spec.fill fst snd]. rewrite std_min_Rmin. simpl.
    set (take := Rmin (q - filled) size).
    unfold Rleb.
    destruct (Rle_dec q (filled + take)), (Rle_dec (q - filled - take) 0);
      try lra.
    + reflexivity.
    + rewrite IH. f_equal. lra.
Qed.

(** On a book thinner than the order every level is taken whole. *)
Lemma walk_asks_thin (q : R) (levels : list (R * R)) : forall filled cost,
  Forall (fun level => 0 <= snd level) levels ->
  filled + Spec.depth levels < q ->
  walk_asks q levels filled cost
  = (filled + Spec.depth levels, cost + Spec.notional levels).
Proof.
  induction levels as [ | [price size] rest IH]; intros filled cost Hpos Hthin.
  - simpl. f_equal; lra.
  - inversion Hpos as [ | level levels' Hsize Hrest]; subst.
    cbn [Spec.depth Spec.notional fold_right fst snd] in *.
    fold (Spec.depth rest) in *. fold (Spec.notional rest).
    assert (Hdepth : 0 <= Spec.depth rest).
    { clear - Hrest. induction Hrest; simpl; [lra | ].
      fold (Spec.depth l). lra. }
    cbn [walk_asks fst snd]. unfold std_min. simpl.
    rewrite (@Rltb_true size (q - filled)) by lra.
    rewrite (@Rleb_false q (filled + size)) by lra.
    rewrite IH by (trivial; lra).
    f_equal; lra.
Qed.

(** C2: [CalculateSlippage] is the walk of the specification: best ask
    first, [min(remaining, levelSize)] at the level's price, until the
    order is filled or the levels run out, then cost over quantity less
    the best bid.  On the book of the unit test and a quantity of 7 it
    gives [709/7 - 100]; in binary64 that is within 0.001 of 1.2857 and
    not within 0.001 of 1.0. *)
Theorem CalculateSlippage_walks_asks :
  (forall (q : R) (book : OrderBook R),
      CalculateSlippage q book = Spec.slippagePerUnit q book) /\
  CalculateSlippage (T:=R) 7 test_book = Some (709 / 7 - 100) /\
  (exists s : float,
      CalculateSlippage (T:=float) (of_Z 7) test_book = Some s /\
      PrimFloat.ltb (PrimFloat.abs (s - lit 12857 10000)%scalar) (lit 1 1000)
      = true /\
      PrimFloat.ltb (PrimFloat.abs (s - of_Z 1)%scalar) (lit 1 1000)
      = false).
Proof.
  assert (Hspec : forall (q : R) (book : OrderBook R),
             CalculateSlippage q book = Spec.slippagePerUnit q book).
  { intros q book. unfold CalculateSlippage, Spec.slippagePerUnit.
    destruct (bids book) as [ | [bestBidPrice bestBidSize] rest]; simpl.
    - reflexivity.
    - pose proof (walk_asks_fill q (asks book) 0 0) as Hwalk.
      simpl in Hwalk.
      destruct (walk_asks q (asks book) 0 0) as [filled cost].
      cbn [snd] in Hwalk. rewrite Rminus_0_r in Hwalk.
      rewrite Hwalk. reflexivity. }
  split; [exact Hspec | ]. split.
  - rewrite Hspec. unfold Spec.slippagePerUnit. simpl.
    unfold Rmin.
    destruct (Rle_dec 7 5); [lra | ].
    destruct (Rle_dec (7 - 5) 0); [lra | ].
    destruct (Rle_dec (7 - 5) 10); [ | lra].
    destruct (Rle_dec (7 - 5 - (7 - 5)) 0); [ | lra].
    f_equal. lra.
  - eexists. split; [vm_compute; reflexivity | ].
    split; vm_compute; reflexivity.
Qed.

(** C4 (amended): when the asks, each of a size that is not negative,
    hold less than the quantity, the cost is that of the whole ask side and
    it is still divided by the full quantity before the best bid is taken
    off. *)
Theorem CalculateSlippage_thin_book (q : R) (book : OrderBook R) (best : R * R) :
  nth_error (bids book) 0 = Some best ->
  Forall (fun level => 0 <= snd level) (asks book) ->
  Spec.depth (asks book) < q ->
  CalculateSlippage q book
  = Some (Spec.notional (asks book) / q - fst best).
Proof.
  intros Hbest Hpos Hthin. unfold CalculateSlippage. rewrite Hbest.
  rewrite walk_asks_thin by (trivial; simpl; lra).
  simpl. do 3 f_equal. lra.
Qed.

(** C7: for [q > 0] and [v >= 0] the market impact is
    [0.01 q + 0.0001 q^2 + v sqrt(q) / sqrt(1.0)]; at [q = 100] and
    [v = 0.02] that is 2.2, and in binary64 the double nearest to 2.2. *)
Theorem CalculateMarketImpact_formula :
  (forall q v : R,
      0 < q -> 0 <= v ->
      CalculateMarketImpact q v
      = 1 / 100 * q + 1 / 10000 * q ^ 2
        + v * R_sqrt.sqrt q / R_sqrt.sqrt 1) /\
  CalculateMarketImpact (T:=R) 100 (2 / 100) = 22 / 10 /\
  CalculateMarketImpact (T:=float) (of_Z 100) (lit 2 100) = lit 22 10.
Proof.
  split; [ | split].
  - intros q v _ _. unfold CalculateMarketImpact, lit. simpl.
    rewrite Rdiv_1_r. ring.
  - unfold CalculateMarketImpact, lit. simpl.
    rewrite Rdiv_1_r, sqrt_1.
    replace (R_sqrt.sqrt 100) with 10; [lra | ].
    replace 100 with (10 * 10) by lra.
    symmetry. apply sqrt_square. lra.
  - vm_compute. reflexivity.
Qed.

(** C10: over the reals the predicted maker/taker ratio lies strictly
    between 0 and 1, whatever the quantity and the volatility. *)
Theorem PredictMakerTakerRatio_in_unit_interval (q v : R) :
  PredictMakerTakerRatio q v
  = 1 / (1 + Rtrigo_def.exp (- (5 / 1000 * q - 1 / 10 * v + 2))) /\
  0 < PredictMakerTakerRatio q v < 1.
Proof.
  unfold PredictMakerTakerRatio, lit. simpl.
  split; [reflexivity | ].
  set (x := - (5 / 1000 * q - 1 / 10 * v + 2)).
  pose proof (exp_pos x) as Hexp.
  assert (Hinv : 0 < / (1 + Rtrigo_def.exp x)) by (apply Rinv_0_lt_compat; lra).
  assert (Hone : / (1 + Rtrigo_def.exp x) * (1 + Rtrigo_def.exp x) = 1)
    by (field; lra).
  unfold Rdiv. rewrite Rmult_1_l. nra.
Qed.

(** C4 (as stated) fails on a level of negative size: the asks
    [(101, 10); (102, -8)] hold 2, less than the quantity 5, yet the first
    level fills the order and the loop breaks; the slippage is
    [505/5 - 100 = 1], over the reals and in binary64, and not
    [(1010 - 816)/5 - 100 = -61.2], the cost of the whole ask side over
    the quantity. *)
Lemma CalculateSlippage_negative_size_fills_early :
  Spec.depth (asks (negative_size_book (T:=R))) < 5 /\
  CalculateSlippage (T:=R) 5 negative_size_book = Some 1 /\
  Spec.notional (asks (negative_size_book (T:=R))) / 5 - 100 = - 306 / 5 /\
  CalculateSlippage (T:=R) 5 negative_size_book
  <> Some (Spec.notional (asks (negative_size_book (T:=R))) / 5 - 100) /\
  CalculateSlippage (T:=float) (of_Z 5) negative_size_book = Some (of_Z 1).
Proof.
  assert (Hrun : CalculateSlippage (T:=R) 5 negative_size_book = Some 1).
  { unfold CalculateSlippage, negative_size_book. cbn [bids asks nth_error walk_asks fst snd].
    unfold std_min. simpl.
    rewrite (@Rltb_false 10 (5 - 0)) by lra.
    rewrite (@Rleb_true 5 (0 + (5 - 0))) by lra.
    f_equal. lra. }
  assert (Hside : Spec.notional (asks (negative_size_book (T:=R))) / 5 - 100
                  = - 306 / 5).
  { unfold Spec.notional. simpl. lra. }
  split; [unfold Spec.depth; simpl; lra | ].
  split; [exact Hrun | ]. split; [exact Hside | ]. split.
  - rewrite Hrun, Hside. intros Heq. inversion Heq. lra.
  - vm_compute. reflexivity.
Qed.

Lemma CalculateSlippage_thin_book_witness :
  CalculateSlippage (T:=R) 20 test_book
  = Some (Spec.notional (asks test_book) / 20 - 100).
Proof.
  apply (@CalculateSlippage_thin_book 20 test_book (100, 10)).
  - reflexivity.
  - repeat constructor; simpl; lra.
  - unfold Spec.depth. simpl. lra.
Defined.

Lemma CalculateMarketImpact_formula_witness :
  CalculateMarketImpact (T:=R) 100 (2 / 100)
  = 1 / 100 * 100 + 1 / 10000 * 100 ^ 2
    + 2 / 100 * R_sqrt.sqrt 100 / R_sqrt.sqrt 1.
Proof.
  apply (proj1 CalculateMarketImpact_formula 100 (2 / 100)); lra.
Defined.

Lemma SimulateTrade_best_bid_in_bounds_witness :
  nth_error (bids (test_book (T:=R))) 0 <> None /\
  CalculateSlippage (T:=R) 7 test_book <> None.
Proof.
  apply (proj1 (@SimulateTrade_best_bid_in_bounds R _ _) 7 test_book).
  reflexivity.
Defined.
End CostFormulas.

(** ** The history under [ProcessData] *)

Section ProcessDataFacts.
Context {T : Type}.

(** A frame whose levels all have two entries never leaves the history
    above [CONFIG_MAX_HISTORY], and [ProcessData] returns. *)
Lemma ProcessData_history_bounded (f : frame (T:=T)) (w : World T) :
  (forall sym, f <> ShortLevel sym) ->
  (List.length (orderBookHistory w) <= CONFIG_MAX_HISTORY)%nat ->
  fst (ProcessData f w) = Returned tt /\
  (List.length (orderBookHistory (snd (ProcessData f w)))
   <= CONFIG_MAX_HISTORY)%nat.
Proof.
  intros Hlevels Hlen.
  assert (Hcap : (1 <= CONFIG_MAX_HISTORY)%nat) by (unfold CONFIG_MAX_HISTORY; lia).
  destruct f as [ | e | sym e | sym | sym asks_ bids_];
    [ | | | exfalso; apply (Hlevels sym); reflexivity | ];
    unfold ProcessData, try_catch, bind; simpl; try (split; [reflexivity | exact Hlen]).
  unfold append_to_history, bind, read_history, unchecked; simpl.
  destruct (Nat.eq_dec (List.length (orderBookHistory w)) CONFIG_MAX_HISTORY)
    as [Hfull | Hroom].
  - destruct (orderBookHistory w) as [ | old h] eqn:Hh; [simpl in Hfull; lia | ].
    rewrite (history_append_full _ Hfull). simpl.
    split; [reflexivity | ]. rewrite length_app. simpl in *. lia.
  - rewrite history_append_room by lia. simpl.
    split; [reflexivity | ]. rewrite length_app. simpl. lia.
Qed.
End ProcessDataFacts.

(** ** Reconnecting *)

Section RetryFacts.
Variable e : exception.

Lemma Connect_failures (n : nat) (rest : list io) : forall st,
  Connect (failures n e ++ rest) st
  = unwind (2 * n) (Connect rest (retry_times n e st)).
Proof.
  induction n as [ | n IH]; intros st.
  - reflexivity.
  - cbn [failures app]. cbn [Connect]. cbn [RetryConnection].
    fold (retry_once e st). rewrite IH.
    replace (2 * S n)%nat with (S (S (2 * n))) by lia. reflexivity.
Qed.

Lemma retry_once_state (st : conn_state) :
  frames (retry_once e st) = S (S (frames st)) /\
  slept (retry_once e st) = (slept st + CONFIG_RETRY_INTERVAL)%nat /\
  peak (retry_once e st)
  = Nat.max (Nat.max (peak st) (S (frames st))) (S (S (frames st))).
Proof. repeat split. Qed.

Lemma retry_times_state (n : nat) : forall st,
  frames (retry_times n e st) = (frames st + 2 * n)%nat /\
  slept (retry_times n e st) = (slept st + n * CONFIG_RETRY_INTERVAL)%nat /\
  ((frames st <= peak st)%nat ->
   peak (retry_times n e st) = Nat.max (peak st) (frames st + 2 * n)).
Proof.
  induction n as [ | n IH]; intros st.
  - cbn [retry_times]. repeat split; lia.
  - cbn [retry_times]. destruct (IH (retry_once e st)) as (Hf & Hs & Hp).
    destruct (retry_once_state st) as (Hf1 & Hs1 & Hp1).
    rewrite Hf, Hs. rewrite Hf1, Hp1 in Hp. rewrite Hf1, Hs1.
    repeat split; lia.
Qed.

Lemma unwind_Blocked (k : nat) (st : conn_state) :
  unwind k (Blocked st) = Blocked st.
Proof. induction k as [ | k IH]; simpl; [ | rewrite IH]; reflexivity. Qed.

Lemma unwind_Finished (k : nat) : forall st,
  exists st',
    unwind k (Finished st) = Finished st' /\
    frames st' = (frames st - k)%nat /\ peak st' = peak st /\
    slept st' = slept st.
Proof.
  induction k as [ | k IH]; intros st; cbn [unwind].
  - exists st. repeat split. lia.
  - destruct (IH st) as (st' & -> & Hf & Hp & Hs). cbn [and_then].
    eexists. split; [reflexivity | ].
    unfold leave. cbn [frames peak slept]. repeat split; try assumption. lia.
Qed.

(** C3 (amended): a retry is a nested call, not a turn of a loop.  After
    [n] failed attempts the next attempt runs [2 n + 1] frames deep,
    [n] fixed delays having been slept; once it succeeds every frame is
    popped and the stack has been [2 n + 1] frames deep. *)
Theorem retry_nests_two_frames (n : nat) :
  (exists st,
      Connect (failures n e) idle = Blocked st /\
      frames st = (2 * n + 1)%nat /\
      slept st = (n * CONFIG_RETRY_INTERVAL)%nat) /\
  (exists st,
      Connect (failures n e ++ [Succeeds]) idle = Finished st /\
      frames st = 0%nat /\
      peak st = (2 * n + 1)%nat /\
      slept st = (n * CONFIG_RETRY_INTERVAL)%nat).
Proof.
  destruct (retry_times_state n idle) as (Hf & Hs & Hp).
  cbn [idle frames peak slept] in Hf, Hs, Hp.
  specialize (Hp (le_n 0)). split.
  - rewrite <- (app_nil_r (failures n e)), Connect_failures.
    cbn [Connect]. rewrite unwind_Blocked.
    eexists. split; [reflexivity | ].
    unfold enter. cbn [frames slept]. rewrite Hf, Hs. split; lia.
  - rewrite Connect_failures. cbn [Connect].
    match goal with
    | |- context [unwind _ (Finished ?s)] =>
        destruct (unwind_Finished (2 * n) s) as (st' & -> & Hf' & Hp' & Hs')
    end.
    unfold leave, conn_Log, enter in Hf', Hp', Hs'.
    cbn [frames peak slept] in Hf', Hp', Hs'.
    exists st'. split; [reflexivity | ].
    rewrite Hf', Hp', Hs', Hf, Hp, Hs. repeat split; lia.
Qed.
End RetryFacts.

(** C3 (as stated) fails: the first attempt runs one frame deep and the
    attempt after three failures seven frames deep, and no bound holds the
    depth of the stack over all runs. *)
Lemma retries_grow_the_stack :
  frames (state_of (Connect [] idle)) = 1%nat /\
  frames (state_of
            (Connect (failures 3 (system_error "connection refused")) idle))
  = 7%nat /\
  ~ (exists bound : nat,
        forall script : list io,
          (peak (state_of (Connect script idle)) <= bound)%nat).
Proof.
  split; [reflexivity | ]. split; [reflexivity | ].
  intros [bound Hbound].
  specialize (Hbound (failures bound (system_error "connection refused"))).
  rewrite <- (app_nil_r (failures bound _)), Connect_failures in Hbound.
  cbn [Connect] in Hbound. rewrite unwind_Blocked in Hbound.
  destruct (retry_times_state (system_error "connection refused") bound idle)
    as (Hf & _ & _).
  unfold state_of, enter in Hbound. cbn [peak] in Hbound.
  rewrite Hf in Hbound. cbn [idle frames] in Hbound. lia.
Qed.

(** * Further properties of the code *)

(** ** [ProcessData] *)

Section IngestionFacts.
Context {T : Type}.
Implicit Types (w : World T) (f : frame (T:=T)).

(** [pop_front] has something to pop whenever the capacity is reached. *)
Lemma history_append_CONFIG (h : list (OrderBook T)) (book : OrderBook T) :
  history_append CONFIG_MAX_HISTORY h book
  = Some ((if (CONFIG_MAX_HISTORY <=? List.length h)%nat then tl h else h)
          ++ [book]).
Proof.
  unfold history_append.
  destruct (Nat.leb_spec CONFIG_MAX_HISTORY (List.length h)) as [Hfull | Hroom].
  - destruct h as [ | old h]; [ | reflexivity].
    unfold CONFIG_MAX_HISTORY in Hfull. simpl in Hfull. lia.
  - reflexivity.
Qed.

Lemma ProcessData_Parsed (sym : string) (asks_ bids_ : list (T * T)) w :
  ProcessData (Parsed sym asks_ bids_) w
  = (Returned tt,
     {| orderBookHistory :=
          (if (CONFIG_MAX_HISTORY <=? List.length (orderBookHistory w))%nat
           then tl (orderBookHistory w) else orderBookHistory w)
          ++ [{| symbol := sym; asks := asks_; bids := bids_;
                 timestamp := clock w (clock_reads w) |}];
        currentResults := currentResults w;
        logFile := logFile w;
        wakeups := S (wakeups w);
        clock := clock w;
        clock_reads := S (clock_reads w) |}).
Proof.
  unfold ProcessData, try_catch, bind, now, append_to_history, bind,
    read_history, unchecked. cbn [orderBookHistory].
  rewrite history_append_CONFIG. reflexivity.
Qed.

(** X1: a frame that [ValidateJson] rejects, or one with a field whose
    conversion throws, is dropped: [ProcessData] returns normally, the history, the
    published result and the wake-up count are as before, and the log has
    one more line, a WARNING for the first and an ERROR for the others. *)
Theorem ProcessData_drops_bad_frame f w :
  (forall sym asks_ bids_, f <> Parsed sym asks_ bids_) ->
  (forall sym, f <> ShortLevel sym) ->
  fst (ProcessData f w) = Returned tt /\
  orderBookHistory (snd (ProcessData f w)) = orderBookHistory w /\
  currentResults (snd (ProcessData f w)) = currentResults w /\
  wakeups (snd (ProcessData f w)) = wakeups w /\
  exists msg,
    logFile (snd (ProcessData f w))
    = logFile w
      ++ [{| level := match f with Invalid => "WARNING" | _ => "ERROR" end;
             message := msg |}].
Proof.
  intros Hbad Hlevels. destruct f as [ | e | sym e | sym | sym asks_ bids_].
  - repeat split. eexists. reflexivity.
  - repeat split. eexists. reflexivity.
  - repeat split. eexists. reflexivity.
  - exfalso. apply (Hlevels sym). reflexivity.
  - exfalso. apply (Hbad sym asks_ bids_). reflexivity.
Qed.

(** X2: a well-formed frame is always ingested, whatever the history holds:
    [ProcessData] returns normally, the new book, stamped with the clock,
    is the latest one and sits behind the old history less its oldest
    book if that was full, there is one wake-up more and no log line. *)
Theorem ProcessData_ingests_good_frame
    (sym : string) (asks_ bids_ : list (T * T)) w :
  let book := {| symbol := sym; asks := asks_; bids := bids_;
                 timestamp := clock w (clock_reads w) |} in
  let w' := snd (ProcessData (Parsed sym asks_ bids_) w) in
  fst (ProcessData (Parsed sym asks_ bids_) w) = Returned tt /\
  back (orderBookHistory w') = Some book /\
  orderBookHistory w'
  = (if (CONFIG_MAX_HISTORY <=? List.length (orderBookHistory w))%nat
     then tl (orderBookHistory w) else orderBookHistory w) ++ [book] /\
  (List.length (orderBookHistory w) <= CONFIG_MAX_HISTORY ->
   List.length (orderBookHistory w') <= CONFIG_MAX_HISTORY)%nat /\
  wakeups w' = S (wakeups w) /\
  logFile w' = logFile w /\
  currentResults w' = currentResults w.
Proof.
  intros book w'. subst book w'. rewrite ProcessData_Parsed.
  cbn [fst snd orderBookHistory wakeups logFile currentResults].
  repeat split.
  - apply back_snoc.
  - intros Hlen. rewrite length_app. cbn [List.length].
    destruct (Nat.leb_spec CONFIG_MAX_HISTORY (List.length (orderBookHistory w)))
      as [Hfull | Hroom]; [ | lia].
    destruct (orderBookHistory w); cbn [tl List.length] in *;
      unfold CONFIG_MAX_HISTORY in *; lia.
Qed.
End IngestionFacts.

Lemma ProcessData_drops_bad_frame_witness :
  orderBookHistory
    (snd (ProcessData (BadLevel "BTC-USDT-SWAP" (json_exception "type must be number"))
            (world_with (T:=float) [test_book])))
  = [test_book].
Proof.
  apply (ProcessData_drops_bad_frame (T:=float)).
  - intros sym asks_ bids_. discriminate.
  - intros sym. discriminate.
Defined.

Lemma ProcessData_ingests_good_frame_witness :
  (List.length
     (orderBookHistory
        (snd (ProcessData (Parsed "BTC-USDT-SWAP" (asks test_book) (bids test_book))
                (world_with (T:=float) [test_book]))))
   <= CONFIG_MAX_HISTORY)%nat.
Proof.
  apply (ProcessData_ingests_good_frame (T:=float)).
  unfold CONFIG_MAX_HISTORY. simpl. lia.
Defined.

(** ** [StartAsyncRead] *)

Section ReadingFacts.
Context {T : Type}.
Implicit Types (w : World T) (f : frame (T:=T)) (events : list (read_event (T:=T))).

Lemma ProcessData_returns f w :
  (forall sym, f <> ShortLevel sym) -> fst (ProcessData f w) = Returned tt.
Proof.
  intros Hlevels. destruct f as [ | e | sym e | sym | sym asks_ bids_];
    try reflexivity.
  - exfalso. apply (Hlevels sym). reflexivity.
  - rewrite ProcessData_Parsed. reflexivity.
Qed.

Lemma ProcessData_not_thrown f w (e : exception) :
  fst (ProcessData f w) <> Thrown e.
Proof.
  destruct f as [ | e' | sym e' | sym | sym asks_ bids_]; try discriminate.
  rewrite ProcessData_Parsed. discriminate.
Qed.

Lemma StartAsyncRead_frame f events w :
  (forall sym, f <> ShortLevel sym) ->
  StartAsyncRead (ReadFrame f :: events) w
  = StartAsyncRead events (snd (ProcessData f w)).
Proof.
  intros Hlevels. cbn [StartAsyncRead]. unfold bind at 1.
  pose proof (ProcessData_returns w Hlevels) as Hret.
  destruct (ProcessData f w) as [out w1]. cbn [fst snd] in *.
  rewrite Hret. reflexivity.
Qed.

Lemma not_short_level f :
  short_level (ReadFrame f) = false -> forall sym, f <> ShortLevel sym.
Proof. intros Hshort sym ->. discriminate. Qed.

(** The history keeps the last [capacity] entries of what it was given. *)
Lemma window_step {A} (capacity : nat) (l rest : list A) (x : A) :
  (1 <= capacity)%nat -> (List.length l <= capacity)%nat ->
  let l1 := (if (capacity <=? List.length l)%nat then tl l else l) ++ [x] in
  skipn (List.length (l1 ++ rest) - capacity) (l1 ++ rest)
  = skipn (List.length (l ++ x :: rest) - capacity) (l ++ x :: rest).
Proof.
  intros Hcap Hlen l1. subst l1.
  destruct (Nat.leb_spec capacity (List.length l)) as [Hfull | Hroom].
  - destruct l as [ | old l]; [simpl in Hfull; lia | ].
    cbn [tl]. rewrite <- app_assoc. cbn [app].
    assert (Hwin : (List.length (old :: l ++ x :: rest) - capacity
                    = S (List.length (l ++ x :: rest) - capacity))%nat).
    { cbn [List.length] in *. rewrite length_app. cbn [List.length]. lia. }
    rewrite Hwin. reflexivity.
  - rewrite <- app_assoc. reflexivity.
Qed.

(** X3: the read loop never lets an exception out, and it returns
    normally when no frame it reads has a level of fewer than two entries
    (on such a frame the index in [ProcessData] is outside the array).
    Once a read has failed it reads no more: what the script holds behind
    the failure changes nothing, and the failure is logged unless it is
    the close of the connection. *)
Theorem StartAsyncRead_ends_at_failed_read :
  (forall events w (e : exception),
      fst (StartAsyncRead events w) <> Thrown e) /\
  (forall events w,
      Forall (fun ev => short_level ev = false) events ->
      fst (StartAsyncRead events w) = Returned tt) /\
  (forall events (closed : bool) (e : exception) (later : list read_event) w,
      StartAsyncRead (events ++ ReadFails closed e :: later) w
      = StartAsyncRead (events ++ [ReadFails closed e]) w) /\
  (forall (e : exception) (later : list read_event) w,
      StartAsyncRead (ReadFails true e :: later) w = (Returned tt, w) /\
      logFile (snd (StartAsyncRead (ReadFails false e :: later) w))
      = logFile w
        ++ [{| level := "ERROR";
               message := ("Async read error: " ++ what e)%string |}]).
Proof.
  split; [ | split; [ | split]].
  - induction events as [ | [closed e' | f] events IH]; intros w e.
    + discriminate.
    + destruct closed; discriminate.
    + cbn [StartAsyncRead]. unfold bind at 1.
      pose proof (ProcessData_not_thrown f w) as Hcaught.
      destruct (ProcessData f w) as [[[] | e' | ] w1]; cbn [fst] in *.
      * apply IH.
      * exfalso. apply (Hcaught e'). reflexivity.
      * discriminate.
  - induction events as [ | [closed e | f] events IH]; intros w Hlevels.
    + reflexivity.
    + destruct closed; reflexivity.
    + inversion Hlevels as [ | ev evs Hhead Htail]; subst.
      rewrite (StartAsyncRead_frame events w (not_short_level Hhead)).
      apply IH, Htail.
  - induction events as [ | [closed' e' | f] events IH]; intros closed e later w.
    + reflexivity.
    + reflexivity.
    + cbn [app StartAsyncRead]. unfold bind.
      destruct (ProcessData f w) as [[[] | e' | ] w1]; [apply IH | | ];
        reflexivity.
  - intros e later w. split; reflexivity.
Qed.

(** X4: when no frame it reads has a level of fewer than two entries, the
    read loop keeps a history that is within its capacity within it, and
    the history then holds, time stamps apart, the last
    [CONFIG_MAX_HISTORY] of its old books followed by the well-formed
    frames read before the first failed read; each of these frames, and
    nothing else, wakes the worker once. *)
Theorem StartAsyncRead_history_window events : forall w,
  Forall (fun ev => short_level ev = false) events ->
  (List.length (orderBookHistory w) <= CONFIG_MAX_HISTORY)%nat ->
  let w' := snd (StartAsyncRead events w) in
  let given := map content (orderBookHistory w) ++ ingested events in
  map content (orderBookHistory w')
  = skipn (List.length given - CONFIG_MAX_HISTORY) given /\
  (List.length (orderBookHistory w') <= CONFIG_MAX_HISTORY)%nat /\
  wakeups w' = (wakeups w + List.length (ingested events))%nat.
Proof.
  assert (Hcap : (1 <= CONFIG_MAX_HISTORY)%nat) by (unfold CONFIG_MAX_HISTORY; lia).
  assert (Hkeep : forall w,
             (List.length (orderBookHistory w) <= CONFIG_MAX_HISTORY)%nat ->
             map content (orderBookHistory w)
             = skipn (List.length (map content (orderBookHistory w) ++ [])
                      - CONFIG_MAX_HISTORY)
                 (map content (orderBookHistory w) ++ [])).
  { intros w Hlen. rewrite app_nil_r, length_map.
    replace (List.length (orderBookHistory w) - CONFIG_MAX_HISTORY)%nat
      with 0%nat by lia.
    reflexivity. }
  induction events as [ | [closed e | f] events IH]; intros w Hlevels Hlen;
    cbn zeta.
  - cbn [StartAsyncRead ingested ret snd List.length].
    split; [apply Hkeep, Hlen | ]. split; [exact Hlen | lia].
  - cbn [ingested List.length].
    destruct closed; cbn [StartAsyncRead ret HandleException Log snd
                            orderBookHistory wakeups];
      (split; [apply Hkeep, Hlen | ]; split; [exact Hlen | lia]).
  - inversion Hlevels as [ | ev evs Hhead Htail]; subst.
    rewrite (StartAsyncRead_frame events w (not_short_level Hhead)).
    destruct f as [ | e | sym e | sym | sym asks_ bids_];
      [ exact (IH (snd (ProcessData Invalid w)) Htail Hlen)
      | exact (IH (snd (ProcessData (BadSymbol e) w)) Htail Hlen)
      | exact (IH (snd (ProcessData (BadLevel sym e) w)) Htail Hlen)
      | discriminate Hhead
      | ].
    specialize (IH (snd (ProcessData (Parsed sym asks_ bids_) w)) Htail).
    rewrite ProcessData_Parsed in *.
    cbn [snd orderBookHistory wakeups] in IH. cbn [snd ingested List.length].
    destruct IH as (Hwin & Hbound & Hwake).
    { rewrite length_app. cbn [List.length].
      destruct (Nat.leb_spec CONFIG_MAX_HISTORY (List.length (orderBookHistory w)))
        as [Hfull | Hroom]; [ | lia].
      destruct (orderBookHistory w); cbn [tl List.length] in *; lia. }
    split; [ | split; [exact Hbound | lia]].
    rewrite Hwin, map_app. cbn [map content symbol asks bids].
    rewrite <- (window_step (map content (orderBookHistory w)) (ingested events)
                  (sym, asks_, bids_) Hcap)
      by (rewrite length_map; exact Hlen).
    rewrite length_map.
    destruct (CONFIG_MAX_HISTORY <=? List.length (orderBookHistory w))%nat;
      [destruct (orderBookHistory w) | ]; reflexivity.
Qed.
End ReadingFacts.

Lemma StartAsyncRead_ends_at_failed_read_witness :
  fst (StartAsyncRead
         [ReadFrame (Parsed "a" (asks test_book) (bids test_book));
          ReadFrame Invalid;
          ReadFails false (system_error "reset")]
         (world_with (T:=float) []))
  = Returned tt.
Proof.
  apply (proj1 (proj2 (@StartAsyncRead_ends_at_failed_read float))).
  repeat constructor.
Defined.

Lemma StartAsyncRead_history_window_witness :
  map content
    (orderBookHistory
       (snd (StartAsyncRead
               [ReadFrame (Parsed "a" (asks test_book) (bids test_book));
                ReadFrame Invalid;
                ReadFails false (system_error "reset");
                ReadFrame (Parsed "b" (asks test_book) (bids test_book))]
               (world_with (T:=float) []))))
  = [("a"%string, asks test_book, bids test_book)].
Proof.
  apply (@StartAsyncRead_history_window float
           [ReadFrame (Parsed "a" (asks test_book) (bids test_book));
            ReadFrame Invalid;
            ReadFails false (system_error "reset");
            ReadFrame (Parsed "b" (asks test_book) (bids test_book))]
           (world_with [])).
  - repeat constructor.
  - unfold CONFIG_MAX_HISTORY. simpl. lia.
Defined.

(** ** [SimulateTrade] and the worker *)

Section SimulationFacts.
Context {T : Type} {HS : Scalar T} {HE : Exponential T}.
Local Open Scope scalar_scope.
Implicit Types (q v f : T) (w : World T) (book : OrderBook T).

(** The run of [SimulateTrade] on valid inputs and a book with both sides:
    the result, and the world after two readings of the clock. *)
Lemma SimulateTrade_priced `{!ScalarOrder T} q v f w book (slip : T) :
  valid_inputs q v f ->
  back (orderBookHistory w) = Some book ->
  is_empty (bids book) || is_empty (asks book) = false ->
  CalculateSlippage q book = Some slip ->
  SimulateTrade q v f w
  = (Returned
       {| slippage := slip; fees := q * f;
          marketImpact := CalculateMarketImpact q v;
          netCost := slip + q * f + CalculateMarketImpact q v;
          makerTakerRatio := PredictMakerTakerRatio q v;
          latency :=
            of_Z (Z.quot (clock w (S (clock_reads w)) - clock w (clock_reads w))
                    1000000) |},
     {| orderBookHistory := orderBookHistory w;
        currentResults := currentResults w;
        logFile := logFile w; wakeups := wakeups w;
        clock := clock w; clock_reads := S (S (clock_reads w)) |}).
Proof.
  intros Hvalid Hback Hguard Hslip.
  unfold SimulateTrade, try_catch, SimulateTrade_body, bind.
  rewrite (ValidateInputs_valid w Hvalid). simpl.
  rewrite Hback, Hguard. simpl. rewrite Hslip. reflexivity.
Qed.

(** Every call returns, with the history it found. *)
Lemma SimulateTrade_total q v f w :
  exists r w1,
    SimulateTrade q v f w = (Returned r, w1) /\
    orderBookHistory w1 = orderBookHistory w.
Proof.
  unfold SimulateTrade, try_catch, SimulateTrade_body, bind, ValidateInputs.
  destruct (q <=? of_Z 0); [do 2 eexists; split; reflexivity | ].
  destruct (v <? of_Z 0); [do 2 eexists; split; reflexivity | ].
  destruct ((f <? of_Z 0) || (f >? of_Z 1));
    [do 2 eexists; split; reflexivity | ].
  simpl.
  destruct (back (orderBookHistory w)) as [book | ]; simpl;
    [ | do 2 eexists; split; reflexivity].
  destruct (is_empty (bids book)) eqn:Hb; simpl;
    [do 2 eexists; split; reflexivity | ].
  destruct (is_empty (asks book)) eqn:Ha; simpl;
    [do 2 eexists; split; reflexivity | ].
  destruct (CalculateSlippage_defined q book Hb) as [s Hs].
  rewrite Hs. simpl. do 2 eexists; split; reflexivity.
Qed.

(** X5: called by a thread that does not hold [orderBookMutex], as the
    worker calls it, [SimulateTrade] returns a result whatever its
    arguments, the history, the published result, the log and the clock:
    no exception leaves it and no access is out of bounds.  It only reads
    the history, the published result and the wake-up count, and it logs
    nothing or one ERROR line. *)
Theorem SimulateTrade_returns_and_only_reads q v f w :
  (exists r, fst (SimulateTrade q v f w) = Returned r) /\
  orderBookHistory (snd (SimulateTrade q v f w)) = orderBookHistory w /\
  currentResults (snd (SimulateTrade q v f w)) = currentResults w /\
  wakeups (snd (SimulateTrade q v f w)) = wakeups w /\
  (logFile (snd (SimulateTrade q v f w)) = logFile w \/
   exists msg,
     logFile (snd (SimulateTrade q v f w))
     = logFile w
       ++ [{| level := "ERROR";
              message := ("Trade simulation error: " ++ msg)%string |}]).
Proof.
  unfold SimulateTrade, try_catch, SimulateTrade_body, bind, ValidateInputs.
  destruct (q <=? of_Z 0);
    [repeat split; [eexists; reflexivity | right; eexists; reflexivity] | ].
  destruct (v <? of_Z 0);
    [repeat split; [eexists; reflexivity | right; eexists; reflexivity] | ].
  destruct ((f <? of_Z 0) || (f >? of_Z 1));
    [repeat split; [eexists; reflexivity | right; eexists; reflexivity] | ].
  simpl.
  destruct (back (orderBookHistory w)) as [book | ]; simpl;
    [ | repeat split; [eexists; reflexivity | left; reflexivity]].
  destruct (is_empty (bids book)) eqn:Hb; simpl;
    [repeat split; [eexists; reflexivity | left; reflexivity] | ].
  destruct (is_empty (asks book)) eqn:Ha; simpl;
    [repeat split; [eexists; reflexivity | left; reflexivity] | ].
  destruct (CalculateSlippage_defined q book Hb) as [s Hs].
  rewrite Hs. simpl.
  repeat split; [eexists; reflexivity | left; reflexivity].
Qed.

(** X6: the simulation prices the frame ingested last.  After
    [ProcessData] has taken in a frame with asks and bids, a simulation
    with valid inputs returns the slippage of that frame's book, whatever
    the history held before, and changes nothing but the clock. *)
Theorem simulation_prices_latest_frame `{!ScalarOrder T}
    q v f w (sym : string) (asks_ bids_ : list (T * T)) :
  valid_inputs q v f ->
  asks_ <> [] -> bids_ <> [] ->
  let w1 := snd (ProcessData (Parsed sym asks_ bids_) w) in
  let book := {| symbol := sym; asks := asks_; bids := bids_;
                 timestamp := clock w (clock_reads w) |} in
  exists r,
    fst (SimulateTrade q v f w1) = Returned r /\
    CalculateSlippage q book = Some (slippage r) /\
    fees r = q * f /\
    netCost r = slippage r + fees r + marketImpact r /\
    orderBookHistory (snd (SimulateTrade q v f w1)) = orderBookHistory w1 /\
    logFile (snd (SimulateTrade q v f w1)) = logFile w.
Proof.
  intros Hvalid Hasks Hbids w1 book.
  assert (Hb : is_empty (bids book) = false)
    by (subst book; destruct bids_; [contradiction | reflexivity]).
  assert (Hguard : is_empty (bids book) || is_empty (asks book) = false)
    by (subst book; destruct bids_, asks_; try contradiction; reflexivity).
  destruct (CalculateSlippage_defined q book Hb) as [slip Hslip].
  assert (Hback : back (orderBookHistory w1) = Some book).
  { subst w1. rewrite ProcessData_Parsed. cbn [snd orderBookHistory].
    apply back_snoc. }
  rewrite (SimulateTrade_priced w1 Hvalid Hback Hguard Hslip).
  eexists. split; [reflexivity | ]. cbn [fst snd slippage fees netCost
    marketImpact orderBookHistory logFile].
  repeat split; try assumption.
  subst w1. rewrite ProcessData_Parsed. reflexivity.
Qed.

(** X7: the latency is the whole number of milliseconds between the two
    readings of the clock that a priced simulation takes: a run of less
    than a millisecond reports 0. *)
Theorem SimulateTrade_latency_whole_milliseconds `{!ScalarOrder T}
    q v f w book (ms : Z) :
  valid_inputs q v f ->
  back (orderBookHistory w) = Some book ->
  bids book <> [] -> asks book <> [] ->
  (0 <= ms)%Z ->
  (ms * 1000000
   <= clock w (S (clock_reads w)) - clock w (clock_reads w)
   < (ms + 1) * 1000000)%Z ->
  exists r,
    fst (SimulateTrade q v f w) = Returned r /\
    latency r = of_Z ms /\
    clock_reads (snd (SimulateTrade q v f w)) = S (S (clock_reads w)).
Proof.
  intros Hvalid Hback Hbids Hasks Hms Hspan.
  assert (Hb : is_empty (bids book) = false)
    by (destruct (bids book); [contradiction | reflexivity]).
  assert (Hguard : is_empty (bids book) || is_empty (asks book) = false)
    by (destruct (bids book), (asks book); try contradiction; reflexivity).
  destruct (CalculateSlippage_defined q book Hb) as [slip Hslip].
  rewrite (SimulateTrade_priced w Hvalid Hback Hguard Hslip).
  eexists. split; [reflexivity | ]. cbn [fst snd latency clock_reads].
  split; [ | reflexivity]. f_equal.
  rewrite Z.quot_div_nonneg by lia.
  symmetry. apply Z.div_unique with
    (r := (clock w (S (clock_reads w)) - clock w (clock_reads w) - ms * 1000000)%Z);
    lia.
Qed.

(** One turn of the worker publishes what [SimulateTrade] returns. *)
Lemma SimulationWorker_cycle_run w (r : SimulationResults T) (w1 : World T) :
  SimulateTrade CONFIG_DEFAULT_QUANTITY CONFIG_DEFAULT_VOLATILITY
    CONFIG_DEFAULT_FEE_TIER w = (Returned r, w1) ->
  SimulationWorker_cycle w
  = (Returned tt,
     {| orderBookHistory := orderBookHistory w1; currentResults := r;
        logFile := logFile w1; wakeups := wakeups w1;
        clock := clock w1; clock_reads := clock_reads w1 |}).
Proof.
  intros Hrun. unfold SimulationWorker_cycle, try_catch, bind.
  rewrite Hrun. reflexivity.
Qed.

(** X8: a turn of the worker never fails and never reaches its own
    [catch]: it returns, leaves the history as it is, publishes the result
    [SimulateTrade] returned, and logs no "Simulation worker error". *)
Theorem SimulationWorker_cycle_publishes w :
  fst (SimulationWorker_cycle w) = Returned tt /\
  orderBookHistory (snd (SimulationWorker_cycle w)) = orderBookHistory w /\
  fst (SimulateTrade CONFIG_DEFAULT_QUANTITY CONFIG_DEFAULT_VOLATILITY
         CONFIG_DEFAULT_FEE_TIER w)
  = Returned (currentResults (snd (SimulationWorker_cycle w))) /\
  logFile (snd (SimulationWorker_cycle w))
  = logFile (snd (SimulateTrade CONFIG_DEFAULT_QUANTITY
                    CONFIG_DEFAULT_VOLATILITY CONFIG_DEFAULT_FEE_TIER w)).
Proof.
  destruct (SimulateTrade_total CONFIG_DEFAULT_QUANTITY
              CONFIG_DEFAULT_VOLATILITY CONFIG_DEFAULT_FEE_TIER w)
    as (r & w1 & Hrun & Hh).
  rewrite (SimulationWorker_cycle_run w Hrun), Hrun.
  cbn [fst snd orderBookHistory currentResults logFile].
  repeat split. exact Hh.
Qed.
End SimulationFacts.

Section WorkerFacts.
Context {T : Type} {HS : Scalar T} {HE : Exponential T} {HO : ScalarOrder T}.
Implicit Types (q v f : T) (w : World T) (book : OrderBook T).

(** Without a book that has both sides a valid call falls back. *)
Lemma SimulateTrade_fallback q v f w :
  valid_inputs q v f ->
  (orderBookHistory w = [] \/
   exists book, back (orderBookHistory w) = Some book /\
                (bids book = [] \/ asks book = [])) ->
  SimulateTrade q v f w = (Returned default_results, w).
Proof.
  intros Hvalid Hbook.
  unfold SimulateTrade, try_catch, SimulateTrade_body, bind.
  rewrite (ValidateInputs_valid w Hvalid). simpl.
  destruct Hbook as [Hnil | (book & Hback & [Hside | Hside])].
  - rewrite Hnil. reflexivity.
  - rewrite Hback, Hside. reflexivity.
  - rewrite Hback, Hside. simpl. rewrite orb_true_r. reflexivity.
Qed.

(** X9: when the latest snapshot lacks a side, a turn of the worker puts
    the all-zero result in place of whatever was published, and changes
    nothing else: an earlier estimate does not survive an empty side. *)
Theorem SimulationWorker_cycle_resets_on_empty_side w book :
  valid_inputs (T:=T) CONFIG_DEFAULT_QUANTITY CONFIG_DEFAULT_VOLATILITY
    CONFIG_DEFAULT_FEE_TIER ->
  back (orderBookHistory w) = Some book ->
  bids book = [] \/ asks book = [] ->
  SimulationWorker_cycle w
  = (Returned tt,
     {| orderBookHistory := orderBookHistory w;
        currentResults := default_results;
        logFile := logFile w; wakeups := wakeups w;
        clock := clock w; clock_reads := clock_reads w |}).
Proof.
  intros Hvalid Hback Hside.
  apply SimulationWorker_cycle_run.
  apply SimulateTrade_fallback; [exact Hvalid | ].
  right. exists book. split; assumption.
Qed.
End WorkerFacts.

(** The default parameters pass the validation, in binary64 and over the
    reals. *)
Lemma default_parameters_valid_binary64 :
  valid_inputs (T:=float) CONFIG_DEFAULT_QUANTITY CONFIG_DEFAULT_VOLATILITY
    CONFIG_DEFAULT_FEE_TIER.
Proof. repeat split; vm_compute; reflexivity. Qed.

Lemma default_parameters_valid_real :
  valid_inputs (T:=R) CONFIG_DEFAULT_QUANTITY CONFIG_DEFAULT_VOLATILITY
    CONFIG_DEFAULT_FEE_TIER.
Proof.
  unfold valid_inputs, CONFIG_DEFAULT_QUANTITY, CONFIG_DEFAULT_VOLATILITY,
    CONFIG_DEFAULT_FEE_TIER, lit. simpl.
  repeat split; first [apply Rltb_true | apply Rleb_true]; lra.
Qed.

Section SimulationWitnesses.
Local Open Scope R_scope.

Lemma simulation_prices_latest_frame_witness :
  exists r,
    fst (SimulateTrade (T:=R) 7 (1 / 100) (1 / 1000)
           (snd (ProcessData (Parsed "BTC-USDT-SWAP" (asks test_book) (bids test_book))
                   (world_with []))))
    = Returned r /\
    fees r = 7 * (1 / 1000).
Proof.
  destruct (@simulation_prices_latest_frame R _ _ _ 7 (1 / 100) (1 / 1000)
              (world_with []) "BTC-USDT-SWAP" (asks test_book) (bids test_book))
    as (r & Hr & _ & Hfees & _).
  - exact sample_inputs_valid.
  - discriminate.
  - discriminate.
  - exists r. split; assumption.
Defined.

Lemma SimulateTrade_latency_whole_milliseconds_witness :
  exists r,
    fst (SimulateTrade (T:=R) 7 (1 / 100) (1 / 1000) (world_with [test_book]))
    = Returned r /\
    latency r = 1.
Proof.
  destruct (@SimulateTrade_latency_whole_milliseconds R _ _ _ 7 (1 / 100) (1 / 1000)
              (world_with [test_book]) test_book 1)
    as (r & Hr & Hlat & _).
  - exact sample_inputs_valid.
  - reflexivity.
  - discriminate.
  - discriminate.
  - lia.
  - simpl. lia.
  - exists r. split; assumption.
Defined.

Lemma SimulationWorker_cycle_resets_on_empty_side_witness :
  currentResults (snd (SimulationWorker_cycle one_sided_world))
  = default_results.
Proof.
  rewrite (@SimulationWorker_cycle_resets_on_empty_side R _ _ _ one_sided_world
             {| symbol := "BTC-USDT-SWAP"; asks := []; bids := [(100, 10)];
                timestamp := 0 |}).
  - reflexivity.
  - exact default_parameters_valid_real.
  - reflexivity.
  - right. reflexivity.
Defined.
End SimulationWitnesses.

(** ** The heartbeat *)

Section PingFacts.
Local Open Scope Z_scope.

Let gap : Z := CONFIG_PING_INTERVAL * 1000000000.

Lemma spaced_snoc (times : list Z) (t t' : Z) :
  spaced gap (times ++ [t]) -> gap < t' - t ->
  spaced gap ((times ++ [t]) ++ [t']).
Proof.
  induction times as [ | t0 times IH]; intros Hsp Hgap.
  - simpl. auto.
  - cbn [app spaced] in *. destruct Hsp as [Hhead Hrest]. split.
    + destruct times; simpl in *; assumption.
    + apply IH; assumption.
Qed.

Lemma Ping_invariant (t0 now_ : Z) (answer : io) (st : ping_state) :
  ping_invariant t0 st -> ping_invariant t0 (Ping now_ answer st).
Proof.
  intros [[front Hlast] Hsp]. unfold Ping. fold gap.
  destruct (Z.ltb_spec gap (now_ - lastPing_ st)) as [Hdue | Hearly];
    [ | split; eauto].
  destruct answer as [ | e]; [ | split; eauto].
  split; cbn [pings lastPing_].
  - exists (t0 :: pings st). reflexivity.
  - change (t0 :: pings st ++ [now_]) with ((t0 :: pings st) ++ [now_]).
    rewrite Hlast in *. apply spaced_snoc; assumption.
Qed.

(** X10: however [Ping] is called and whatever the clock reads, two
    heartbeats that went out one after the other are more than
    [CONFIG_PING_INTERVAL] seconds apart, and the first one is more than
    that after the time the handler started with. *)
Theorem Ping_heartbeats_spaced (calls : list (Z * io)) (t0 : Z) :
  spaced (CONFIG_PING_INTERVAL * 1000000000)
    (t0 :: pings (Ping_calls calls
                    {| lastPing_ := t0; pings := []; ping_log := [] |})).
Proof.
  assert (Hall : forall calls st,
             ping_invariant t0 st -> ping_invariant t0 (Ping_calls calls st)).
  { clear calls. induction calls as [ | [now_ answer] calls IH]; intros st Hinv.
    - exact Hinv.
    - cbn [Ping_calls]. apply IH, Ping_invariant, Hinv. }
  apply Hall. split.
  - exists []. reflexivity.
  - simpl. auto.
Qed.

(** X11: a heartbeat that fails is logged and is not counted as sent:
    [lastPing_] stays, so the next call of [Ping], at the same time or
    later, sends one again. *)
Theorem Ping_failure_is_retried
    (now_ later : Z) (e : exception) (st : ping_state) :
  CONFIG_PING_INTERVAL * 1000000000 < now_ - lastPing_ st ->
  now_ <= later ->
  Ping now_ (Fails e) st
  = {| lastPing_ := lastPing_ st; pings := pings st;
       ping_log := ping_log st
                   ++ [{| level := "ERROR";
                          message := ("Ping error: " ++ what e)%string |}] |} /\
  pings (Ping later Succeeds (Ping now_ (Fails e) st)) = pings st ++ [later] /\
  lastPing_ (Ping later Succeeds (Ping now_ (Fails e) st)) = later.
Proof.
  intros Hdue Hlater. unfold Ping.
  destruct (Z.ltb_spec (CONFIG_PING_INTERVAL * 1000000000) (now_ - lastPing_ st))
    as [_ | Hearly]; [ | lia].
  cbn [lastPing_ pings].
  destruct (Z.ltb_spec (CONFIG_PING_INTERVAL * 1000000000) (later - lastPing_ st))
    as [_ | Hearly]; [ | lia].
  repeat split.
Qed.
End PingFacts.

Lemma Ping_failure_is_retried_witness :
  pings (Ping 30000000000 Succeeds
           (Ping 25000000000 (Fails (system_error "broken pipe"))
              {| lastPing_ := 0; pings := []; ping_log := [] |}))
  = [30000000000%Z].
Proof.
  apply (@Ping_failure_is_retried 25000000000 30000000000
           (system_error "broken pipe")
           {| lastPing_ := 0; pings := []; ping_log := [] |}).
  - vm_compute. reflexivity.
  - vm_compute. discriminate.
Defined.

(** ** More on connecting *)

Section ConnectFacts.

Lemma and_then_leave_Finished (r : run) (st' : conn_state) :
  and_then r leave = Finished st' ->
  exists inner, r = Finished inner /\ st' = leave inner.
Proof.
  destruct r as [inner | inner]; simpl; intros Heq; inversion Heq.
  exists inner. split; reflexivity.
Qed.

Lemma Connect_and_Retry_balanced (script : list io) :
  (forall st st',
      Connect script st = Finished st' ->
      frames st' = frames st /\
      exists front,
        conn_log st'
        = front ++ [{| level := "INFO";
                       message := "WebSocket connection established successfully." |}]) /\
  (forall st st',
      RetryConnection script st = Finished st' ->
      frames st' = frames st /\
      exists front,
        conn_log st'
        = front ++ [{| level := "INFO";
                       message := "WebSocket connection established successfully." |}]).
Proof.
  induction script as [ | [ | e] script [IHc IHr]]; split; intros st st' Hrun;
    cbn [Connect RetryConnection] in Hrun; try discriminate.
  - inversion Hrun. split; [reflexivity | ]. eexists. reflexivity.
  - apply and_then_leave_Finished in Hrun as (inner & Hinner & ->).
    destruct (IHc _ _ Hinner) as [Hf Hlog]. split; [ | exact Hlog].
    cbn [leave frames]. rewrite Hf. reflexivity.
  - apply and_then_leave_Finished in Hrun as (inner & Hinner & ->).
    destruct (IHr _ _ Hinner) as [Hf Hlog]. split; [ | exact Hlog].
    cbn [leave frames]. rewrite Hf. reflexivity.
  - apply and_then_leave_Finished in Hrun as (inner & Hinner & ->).
    destruct (IHr _ _ Hinner) as [Hf Hlog]. split; [ | exact Hlog].
    cbn [leave frames]. rewrite Hf. reflexivity.
Qed.

(** X12: [Connect] comes back to its caller only with a connection: when
    it returns, the last line of the log reports the connection as
    established, and every frame it pushed has been popped. *)
Theorem Connect_returns_only_connected
    (script : list io) (st st' : conn_state) :
  Connect script st = Finished st' ->
  frames st' = frames st /\
  exists front,
    conn_log st'
    = front ++ [{| level := "INFO";
                   message := "WebSocket connection established successfully." |}].
Proof. apply (proj1 (Connect_and_Retry_balanced script)). Qed.

Lemma errors_app (log log' : list log_entry) :
  errors (log ++ log') = (errors log + errors log')%nat.
Proof. unfold errors. rewrite filter_app, length_app. reflexivity. Qed.

Lemma state_of_and_then_leave (r : run) :
  conn_log (state_of (and_then r leave)) = conn_log (state_of r) /\
  slept (state_of (and_then r leave)) = slept (state_of r).
Proof. destruct r; split; reflexivity. Qed.

Lemma Connect_and_Retry_sleep (script : list io) :
  (forall st,
      exists new,
        conn_log (state_of (Connect script st)) = conn_log st ++ new /\
        slept (state_of (Connect script st))
        = (slept st + CONFIG_RETRY_INTERVAL * errors new)%nat) /\
  (forall st,
      exists new,
        conn_log (state_of (RetryConnection script st)) = conn_log st ++ new /\
        slept (state_of (RetryConnection script st))
        = (slept st + CONFIG_RETRY_INTERVAL * S (errors new))%nat).
Proof.
  induction script as [ | [ | e] script [IHc IHr]]; split; intros st;
    cbn [Connect RetryConnection];
    try (destruct (state_of_and_then_leave
                     (RetryConnection script
                        (conn_HandleException e "WebSocket connection error"
                           (enter st)))) as [-> ->]);
    try (destruct (state_of_and_then_leave
                     (RetryConnection script
                        (conn_HandleException e "Connection retry failed"
                           (sleep_for CONFIG_RETRY_INTERVAL (enter st)))))
           as [-> ->]);
    try (destruct (state_of_and_then_leave
                     (Connect script (sleep_for CONFIG_RETRY_INTERVAL (enter st))))
           as [-> ->]).
  - exists []. cbn. rewrite app_nil_r. split; [reflexivity | unfold CONFIG_RETRY_INTERVAL; lia].
  - exists []. cbn. rewrite app_nil_r. split; [reflexivity | unfold CONFIG_RETRY_INTERVAL; lia].
  - eexists. cbn. split; [reflexivity | ]. cbn. unfold CONFIG_RETRY_INTERVAL. lia.
  - destruct (IHc (sleep_for CONFIG_RETRY_INTERVAL (enter st)))
      as (new & Hlog & Hslept).
    exists new. rewrite Hlog, Hslept. cbn [sleep_for enter conn_log slept].
    split; [reflexivity | unfold CONFIG_RETRY_INTERVAL; lia].
  - destruct (IHr (conn_HandleException e "WebSocket connection error" (enter st)))
      as (new & Hlog & Hslept).
    rewrite Hlog, Hslept. cbn [conn_HandleException conn_Log enter conn_log slept].
    rewrite <- app_assoc. eexists. split; [reflexivity | ].
    rewrite errors_app.
    change (errors [{| level := "ERROR";
                       message := ("WebSocket connection error" ++ ": " ++ what e)%string |}])
      with 1%nat.
    unfold CONFIG_RETRY_INTERVAL. lia.
  - destruct (IHr (conn_HandleException e "Connection retry failed"
                     (sleep_for CONFIG_RETRY_INTERVAL (enter st))))
      as (new & Hlog & Hslept).
    rewrite Hlog, Hslept.
    cbn [conn_HandleException conn_Log sleep_for enter conn_log slept].
    rewrite <- app_assoc. eexists. split; [reflexivity | ].
    rewrite errors_app.
    change (errors [{| level := "ERROR";
                       message := ("Connection retry failed" ++ ": " ++ what e)%string |}])
      with 1%nat.
    unfold CONFIG_RETRY_INTERVAL. lia.
Qed.

(** X13: the thread sleeps the fixed interval once for every error it
    logs, and never otherwise: whatever the network does, the seconds
    slept in [Connect] are [CONFIG_RETRY_INTERVAL] times the ERROR lines
    that [Connect] added to the log. *)
Theorem Connect_sleeps_once_per_error (script : list io) (st : conn_state) :
  exists new,
    conn_log (state_of (Connect script st)) = conn_log st ++ new /\
    slept (state_of (Connect script st))
    = (slept st + CONFIG_RETRY_INTERVAL * errors new)%nat.
Proof. apply (proj1 (Connect_and_Retry_sleep script)). Qed.
End ConnectFacts.

Lemma Connect_returns_only_connected_witness :
  frames (state_of (Connect [Fails (system_error "refused"); Succeeds; Succeeds] idle))
  = 0%nat.
Proof.
  apply (@Connect_returns_only_connected
           [Fails (system_error "refused"); Succeeds; Succeeds] idle).
  reflexivity.
Defined.

(** ** More on the cost formulas, over the reals *)

Section CostBounds.
Local Open Scope R_scope.

Lemma depth_nonneg (levels : list (R * R)) :
  Forall (fun level => 0 <= snd level) levels -> 0 <= Spec.depth levels.
Proof.
  induction 1 as [ | level levels Hsize _ IH]; simpl; [lra | ].
  fold (Spec.depth levels). lra.
Qed.

(** The walk from [(filled, cost)]: what it fills, and what that costs at
    prices between [lo] and [hi]. *)
Lemma walk_asks_bounds (q lo hi : R) (levels : list (R * R)) :
  Forall (fun level => 0 <= snd level) levels ->
  Forall (fun level => lo <= fst level <= hi) levels ->
  forall filled cost,
    filled <= q ->
    let (filled', cost') := walk_asks q levels filled cost in
    filled' = Rmin q (filled + Spec.depth levels) /\
    lo * (filled' - filled) <= cost' - cost <= hi * (filled' - filled).
Proof.
  intros Hsizes. induction Hsizes as [ | [price size] levels Hsize Hrest IH];
    intros Hprices filled cost Hfilled.
  - simpl. rewrite Rplus_0_r, Rmin_right by lra. split; nra.
  - inversion Hprices as [ | level levels' Hprice Hprices']; subst.
    cbn [fst snd] in *. pose proof (depth_nonneg Hrest) as Hdepth.
    cbn [walk_asks fst snd Spec.depth fold_right]. fold (Spec.depth levels).
    rewrite std_min_Rmin. simpl.
    destruct (Rle_dec (q - filled) size) as [Hlast | Hmore].
    + rewrite (Rmin_left (q - filled) size) by lra.
      rewrite (@Rleb_true q (filled + (q - filled))) by lra.
      rewrite Rmin_left by lra. split; nra.
    + rewrite (Rmin_right (q - filled) size) by lra.
      rewrite (@Rleb_false q (filled + size)) by lra.
      specialize (IH Hprices' (filled + size) (cost + size * price)).
      destruct (walk_asks q levels (filled + size) (cost + size * price))
        as [filled' cost'].
      destruct IH as [Hfill Hcost]; [lra | ].
      split; [rewrite Hfill; f_equal; lra | ].
      assert (Hmono : filled + size <= filled').
      { rewrite Hfill. apply Rmin_glb; lra. }
      nra.
Qed.

(** X14: with level sizes that are not negative, the walk fills the order
    or the whole ask side, whichever is less: what it has filled in the
    end is [min(quantity, depth)]. *)
Theorem walk_asks_fills_min_of_order_and_depth (q : R) (levels : list (R * R)) :
  0 <= q ->
  Forall (fun level => 0 <= snd level) levels ->
  fst (walk_asks q levels 0 0) = Rmin q (Spec.depth levels).
Proof.
  intros Hq Hsizes.
  assert (Hprices : exists lo hi, Forall (fun level : R * R => lo <= fst level <= hi) levels).
  { clear. induction levels as [ | [price size] levels (lo & hi & IH)].
    - exists 0, 0. constructor.
    - exists (Rmin lo price), (Rmax hi price). constructor.
      + simpl. split; [apply Rmin_r | apply Rmax_r].
      + eapply Forall_impl; [ | exact IH]. simpl. intros level [Hlo Hhi].
        pose proof (Rmin_l lo price). pose proof (Rmax_l hi price). lra. }
  destruct Hprices as (lo & hi & Hprices).
  pose proof (@walk_asks_bounds q lo hi levels Hsizes Hprices 0 0 Hq) as Hwalk.
  simpl in Hwalk.
  destruct (walk_asks q levels 0 0) as [filled' cost'].
  destruct Hwalk as [Hfill _]. simpl. rewrite Hfill, Rplus_0_l. reflexivity.
Qed.

(** X15: an order that the best ask covers alone pays the best ask for
    every unit: its slippage is the spread, best ask less best bid. *)
Theorem CalculateSlippage_within_best_ask
    (q : R) (book : OrderBook R) (ask bid : R * R) (deeper lower : list (R * R)) :
  asks book = ask :: deeper ->
  bids book = bid :: lower ->
  0 < q <= snd ask ->
  CalculateSlippage q book = Some (fst ask - fst bid).
Proof.
  intros Hasks Hbids [Hpos Hfits]. unfold CalculateSlippage.
  rewrite Hasks, Hbids. cbn [nth_error walk_asks].
  rewrite std_min_Rmin. simpl.
  rewrite (Rmin_left (q - 0) (snd ask)) by lra.
  rewrite (@Rleb_true q (0 + (q - 0))) by lra.
  f_equal. field. lra.
Qed.

(** X16: when the asks, of sizes that are not negative, can fill the
    order, the price paid per unit lies between the lowest and the highest
    ask price, so the slippage lies between these less the best bid; with
    the best ask as the lowest price it is at least the spread. *)
Theorem CalculateSlippage_between_ask_prices
    (q lo hi : R) (book : OrderBook R) (bid : R * R) :
  nth_error (bids book) 0 = Some bid ->
  Forall (fun level => 0 <= snd level) (asks book) ->
  Forall (fun level => lo <= fst level <= hi) (asks book) ->
  0 < q <= Spec.depth (asks book) ->
  exists s,
    CalculateSlippage q book = Some s /\
    lo - fst bid <= s <= hi - fst bid.
Proof.
  intros Hbid Hsizes Hprices [Hpos Hdeep]. unfold CalculateSlippage.
  rewrite Hbid.
  pose proof (@walk_asks_bounds q lo hi (asks book) Hsizes Hprices 0 0
                (Rlt_le _ _ Hpos)) as Hwalk.
  simpl in *.
  destruct (walk_asks q (asks book) 0 0) as [filled' cost'].
  destruct Hwalk as [Hfill Hcost].
  rewrite Rplus_0_l, Rmin_left in Hfill by lra. subst filled'.
  eexists. split; [reflexivity | ].
  assert (Hunit : lo <= cost' / q <= hi).
  { split.
    - apply Rmult_le_reg_r with q; [lra | ].
      replace (cost' / q * q) with cost' by (field; lra). lra.
    - apply Rmult_le_reg_r with q; [lra | ].
      replace (cost' / q * q) with cost' by (field; lra). lra. }
  lra.
Qed.

Lemma CalculateMarketImpact_real (q v : R) :
  CalculateMarketImpact q v
  = q / 100 + q * q / 10000 + v * R_sqrt.sqrt q.
Proof.
  unfold CalculateMarketImpact, lit. simpl.
  rewrite Rdiv_1_r, sqrt_1. field.
Qed.

(** X17: the market impact of a positive quantity at a volatility that is
    not negative is positive, as the unit test [MarketImpactCalculation]
    expects of one input, and it does not fall when the quantity or the
    volatility rises. *)
Theorem CalculateMarketImpact_positive_and_monotone (q q' v v' : R) :
  0 < q -> q <= q' -> 0 <= v -> v <= v' ->
  0 < CalculateMarketImpact q v /\
  CalculateMarketImpact q v <= CalculateMarketImpact q' v /\
  CalculateMarketImpact q v <= CalculateMarketImpact q v'.
Proof.
  intros Hq Hqq Hv Hvv. rewrite !CalculateMarketImpact_real.
  pose proof (sqrt_pos q) as Hsq.
  assert (Hsqq : R_sqrt.sqrt q <= R_sqrt.sqrt q') by (apply sqrt_le_1; lra).
  repeat split; nra.
Qed.

Lemma exp_monotone (x y : R) : x <= y -> Rtrigo_def.exp x <= Rtrigo_def.exp y.
Proof.
  intros [Hlt | ->]; [left; apply exp_increasing, Hlt | right; reflexivity].
Qed.

(** X18: the predicted maker/taker ratio does not fall when the quantity
    rises and does not rise when the volatility rises. *)
Theorem PredictMakerTakerRatio_monotone (q q' v v' : R) :
  q <= q' -> v <= v' ->
  PredictMakerTakerRatio q v <= PredictMakerTakerRatio q' v /\
  PredictMakerTakerRatio q v' <= PredictMakerTakerRatio q v.
Proof.
  intros Hq Hv. unfold PredictMakerTakerRatio, lit. simpl.
  assert (Hlogistic : forall x y, x <= y ->
            1 / (1 + Rtrigo_def.exp (- x)) <= 1 / (1 + Rtrigo_def.exp (- y))).
  { intros x y Hxy.
    pose proof (exp_pos (- x)). pose proof (exp_pos (- y)).
    assert (Rtrigo_def.exp (- y) <= Rtrigo_def.exp (- x)) by (apply exp_monotone; lra).
    unfold Rdiv. rewrite !Rmult_1_l. apply Rinv_le_contravar; lra. }
  split; apply Hlogistic; lra.
Qed.

(** X19: in a priced result over the reals the fees are not negative and
    not more than the quantity, and the net cost is more than the
    slippage. *)
Theorem SimulateTrade_fees_within_quantity
    (q v f : R) (w : World R) (book : OrderBook R) :
  valid_inputs q v f ->
  back (orderBookHistory w) = Some book ->
  bids book <> [] -> asks book <> [] ->
  exists r,
    fst (SimulateTrade q v f w) = Returned r /\
    0 <= fees r <= q /\
    slippage r < netCost r.
Proof.
  intros Hvalid Hback Hbids Hasks.
  assert (Hb : is_empty (bids book) = false)
    by (destruct (bids book); [contradiction | reflexivity]).
  assert (Hguard : is_empty (bids book) || is_empty (asks book) = false)
    by (destruct (bids book), (asks book); try contradiction; reflexivity).
  destruct (CalculateSlippage_defined q book Hb) as [slip Hslip].
  rewrite (SimulateTrade_priced w Hvalid Hback Hguard Hslip).
  eexists. split; [reflexivity | ]. cbn [fees slippage netCost].
  destruct Hvalid as (Hq & Hv & Hf0 & Hf1). simpl in Hq, Hv, Hf0, Hf1.
  apply Rltb_lt in Hq. apply Rleb_le in Hv, Hf0, Hf1.
  assert (Himpact : 0 < CalculateMarketImpact q v).
  { rewrite CalculateMarketImpact_real. pose proof (sqrt_pos q). nra. }
  revert Himpact. generalize (CalculateMarketImpact q v). intros impact Himpact.
  simpl. split; nra.
Qed.

Lemma walk_asks_fills_min_of_order_and_depth_witness :
  fst (walk_asks (T:=R) 7 (asks test_book) 0 0) = Rmin 7 (Spec.depth (asks test_book)).
Proof.
  apply (@walk_asks_fills_min_of_order_and_depth 7 (asks test_book)).
  - lra.
  - repeat constructor; simpl; lra.
Defined.

Lemma CalculateSlippage_within_best_ask_witness :
  CalculateSlippage (T:=R) 5 test_book = Some (101 - 100).
Proof.
  apply (@CalculateSlippage_within_best_ask 5 test_book (101, 5) (100, 10)
           [(102, 10)] []).
  - reflexivity.
  - reflexivity.
  - simpl. lra.
Defined.

Lemma CalculateSlippage_between_ask_prices_witness :
  exists s,
    CalculateSlippage (T:=R) 7 test_book = Some s /\
    101 - 100 <= s <= 102 - 100.
Proof.
  apply (@CalculateSlippage_between_ask_prices 7 101 102 test_book (100, 10)).
  - reflexivity.
  - repeat constructor; simpl; lra.
  - repeat constructor; simpl; lra.
  - unfold Spec.depth. simpl. lra.
Defined.

Lemma CalculateMarketImpact_positive_and_monotone_witness :
  0 < CalculateMarketImpact (T:=R) 100 (2 / 100).
Proof.
  apply (@CalculateMarketImpact_positive_and_monotone 100 100 (2 / 100) (2 / 100));
    lra.
Defined.

Lemma PredictMakerTakerRatio_monotone_witness :
  PredictMakerTakerRatio (T:=R) 100 (2 / 100)
  <= PredictMakerTakerRatio (T:=R) 200 (2 / 100).
Proof.
  apply (@PredictMakerTakerRatio_monotone 100 200 (2 / 100) (2 / 100)); lra.
Defined.

Lemma SimulateTrade_fees_within_quantity_witness :
  exists r,
    fst (SimulateTrade (T:=R) 7 (1 / 100) (1 / 1000) (world_with [test_book]))
    = Returned r /\
    0 <= fees r <= 7.
Proof.
  destruct (@SimulateTrade_fees_within_quantity 7 (1 / 100) (1 / 1000)
              (world_with [test_book]) test_book)
    as (r & Hr & Hfees & _).
  - exact sample_inputs_valid.
  - reflexivity.
  - discriminate.
  - discriminate.
  - exists r. split; assumption.
Defined.
End CostBounds.

(** ** NaN in binary64 *)

Section NaNFacts.
Local Open Scope scalar_scope.

Lemma mul_nan_l (x : float) : PrimFloat.mul nan x = nan.
Proof. apply Prim2SF_inj. rewrite mul_spec. reflexivity. Qed.

Lemma sub_nan_l (x : float) : PrimFloat.sub nan x = nan.
Proof. apply Prim2SF_inj. rewrite sub_spec. reflexivity. Qed.

Lemma add_nan_r (x : float) : PrimFloat.add x nan = nan.
Proof.
  apply Prim2SF_inj. rewrite add_spec. change (Prim2SF nan) with S754_nan.
  destruct (Prim2SF x); reflexivity.
Qed.

Lemma ltb_nan_r (x : float) : PrimFloat.ltb x nan = false.
Proof.
  rewrite ltb_spec. change (Prim2SF nan) with S754_nan. unfold SFltb.
  destruct (Prim2SF x); reflexivity.
Qed.

Lemma leb_nan_l (x : float) : PrimFloat.leb nan x = false.
Proof. rewrite leb_spec. reflexivity. Qed.

(** Once the order is NaN nothing is ever filled and the cost is NaN. *)
Lemma walk_asks_nan (level : float * float) (levels : list (float * float)) :
  forall filled cost : float,
    walk_asks nan (level :: levels) filled cost = (nan, nan).
Proof.
  revert level. induction levels as [ | next levels IH]; intros level filled cost;
    cbn [walk_asks]; unfold std_min; simpl;
    rewrite sub_nan_l, ltb_nan_r, mul_nan_l, !add_nan_r, leb_nan_l.
  - reflexivity.
  - apply IH.
Qed.

(** X20: the validation does not reject NaN.  With a quantity that is NaN
    and the other two arguments valid, [ValidateInputs] throws nothing,
    and on a book with asks and bids the slippage and the fees that
    [SimulateTrade] goes on to compute are NaN. *)
Theorem NaN_quantity_passes_validation
    (v f : float) (w : World float) (book : OrderBook float) :
  (v >=? of_Z 0) = true -> (f >=? of_Z 0) = true -> (f <=? of_Z 1) = true ->
  asks book <> [] -> bids book <> [] ->
  ValidateInputs nan v f w = (Returned tt, w) /\
  CalculateSlippage nan book = Some nan /\
  nan * f = nan.
Proof.
  intros Hv Hf0 Hf1 Hasks Hbids. split; [ | split].
  - unfold ValidateInputs.
    rewrite (leb_not_ltb _ _ Hv), (leb_not_ltb _ _ Hf0), (leb_not_ltb _ _ Hf1).
    cbn [leb Scalar_float orb]. rewrite leb_nan_l. reflexivity.
  - unfold CalculateSlippage.
    destruct (bids book) as [ | bid lower]; [contradiction | ].
    destruct (asks book) as [ | ask deeper]; [contradiction | ].
    cbn [nth_error]. rewrite walk_asks_nan. simpl.
    rewrite sub_nan_l. reflexivity.
  - apply mul_nan_l.
Qed.
End NaNFacts.

Lemma NaN_quantity_passes_validation_witness :
  ValidateInputs (T:=float) nan (lit 2 100) (lit 1 1000) (world_with [test_book])
  = (Returned tt, world_with [test_book]) /\
  CalculateSlippage (T:=float) nan test_book = Some nan.
Proof.
  destruct (@NaN_quantity_passes_validation (lit 2 100) (lit 1 1000)
              (world_with [test_book]) test_book)
    as (Hvalid & Hslip & _).
  - vm_compute. reflexivity.
  - vm_compute. reflexivity.
  - vm_compute. reflexivity.
  - discriminate.
  - discriminate.
  - split; assumption.
Defined.
